(** * The cache-first request strategy of workbox-runtime-caching

    A shallow embedding of [packages/workbox-runtime-caching/CacheFirst.mjs]:
    the class [CacheFirst] with its [constructor], [handle] and
    [_getFromNetwork], written in a small state-and-exception monad over a
    model of the service worker's world (strategy objects, response body
    streams, promises, lifetime extensions and the log of facade calls),
    followed by the question about glob patterns that the same source file
    holds ([getAllFileExtensions], [askQuestion] and the exported function). *)

From Stdlib Require Import ZArith Lia Ascii.
From stdpp Require Import base option list strings gmap.

Open Scope string_scope.
Open Scope list_scope.

(** ** JavaScript values that the strategy tests for truthiness *)

(** The value bound by [catch (err)] is whatever was thrown: an [Error]
    object, or any primitive.  [let error;] starts as [undefined]. *)
Inductive JsValue : Type :=
  | JsUndefined
  | JsNull
  | JsBool (b : bool)
  | JsNumber (z : Z)
  | JsString (s : string)
  | JsError (name message : string).

(** ECMAScript ToBoolean. *)
Definition truthy (v : JsValue) : bool :=
  match v with
  | JsUndefined | JsNull => false
  | JsBool b => b
  | JsNumber z => negb (z =? 0)%Z
  | JsString s => negb (String.eqb s "")
  | JsError _ _ => true
  end.

(** ** Data model *)

Record Request : Type := { url : string; method : string }.

(** The options argument of [cache.match] and of [fetch]; the strategy
    always passes [null], modelled as [None]. *)
Record CallOptions : Type := { ignoreSearch : bool; credentials : string }.

(** A plugin is an opaque object; only its identity matters here. *)
Record Plugin : Type := { plugin_id : nat }.

(** A response body is a single-consumption stream living in the world. *)
Record Stream : Type := { content : string; disturbed : bool }.

(** A [Response] object: its head and the index of its body stream.  One
    stream belongs to one response object, so [body] is also its identity. *)
Record Response : Type :=
  { status : Z; headers : list (string * string); body : nat }.

(** What a facade produces before the response object is allocated. *)
Record ResponseInit : Type :=
  { init_status : Z; init_headers : list (string * string); init_body : string }.

Record FetchEvent : Type := { event_id : nat; request : Request }.

(** The strategy object: the two fields set by the constructor. *)
Record CacheFirst : Type :=
  { _cacheName : string; _plugins : list Plugin }.

(** The argument of the constructor: [{cacheName, plugins}], each optional. *)
Record Options : Type :=
  { cacheName : option string; plugins : option (list Plugin) }.

Inductive PromiseState : Type :=
  | Pending
  | Fulfilled
  | Rejected (reason : JsValue).

(** Calls that leave the strategy, in the order they are made. *)
Inductive Call : Type :=
  | CallGetRuntimeName (userCacheName : option string)
  | CallMatch (cn : string) (rq : Request) (opts : option CallOptions)
              (pl : list Plugin)
  | CallFetch (rq : Request) (opts : option CallOptions) (pl : list Plugin)
  | CallClone (original copy : Response)
  | CallPut (cn : string) (rq : Request) (rs : Response) (pl : list Plugin)
            (promise : nat)
  | CallWaitUntil (ev : nat) (promise : nat).

Inductive LogEntry : Type :=
  | GroupCollapsed (title : string)
  | Log (message : string)
  | PrintFinalResponse (response : option Response)
  | GroupEnd.

Record World : Type :=
  { objects : list CacheFirst;
    streams : list Stream;
    promises : list PromiseState;
    lifetime : list (nat * nat);
    calls : list Call;
    console : list LogEntry }.

Definition empty_world : World :=
  {| objects := []; streams := []; promises := []; lifetime := [];
     calls := []; console := [] |}.

Definition set_objects (f : list CacheFirst → list CacheFirst) (w : World) :=
  {| objects := f (objects w); streams := streams w; promises := promises w;
     lifetime := lifetime w; calls := calls w; console := console w |}.

Definition set_streams (f : list Stream → list Stream) (w : World) :=
  {| objects := objects w; streams := f (streams w); promises := promises w;
     lifetime := lifetime w; calls := calls w; console := console w |}.

Definition set_promises (f : list PromiseState → list PromiseState) (w : World) :=
  {| objects := objects w; streams := streams w; promises := f (promises w);
     lifetime := lifetime w; calls := calls w; console := console w |}.

Definition set_lifetime (f : list (nat * nat) → list (nat * nat)) (w : World) :=
  {| objects := objects w; streams := streams w; promises := promises w;
     lifetime := f (lifetime w); calls := calls w; console := console w |}.

Definition set_calls (f : list Call → list Call) (w : World) :=
  {| objects := objects w; streams := streams w; promises := promises w;
     lifetime := lifetime w; calls := f (calls w); console := console w |}.

Definition set_console (f : list LogEntry → list LogEntry) (w : World) :=
  {| objects := objects w; streams := streams w; promises := promises w;
     lifetime := lifetime w; calls := calls w; console := f (console w) |}.

(** ** The monad of asynchronous functions

    An [async] function either completes normally with a value or abruptly
    with the thrown value (its promise rejects); [await] is sequencing. *)

Inductive Completion (A : Type) : Type :=
  | Normal (a : A)
  | Abrupt (reason : JsValue).
Arguments Normal {A} a.
Arguments Abrupt {A} reason.

Definition JS (A : Type) : Type := World → Completion A * World.

#[global] Instance JS_ret : MRet JS := λ A a w, (Normal a, w).

#[global] Instance JS_bind : MBind JS := λ A B k m w,
  match m w with
  | (Normal a, w') => k a w'
  | (Abrupt e, w') => (Abrupt e, w')
  end.

Definition throw {A : Type} (e : JsValue) : JS A := λ w, (Abrupt e, w).

(** [try { body } catch (err) { handler err }] *)
Definition try_catch {A : Type} (body : JS A) (handler : JsValue → JS A) : JS A :=
  λ w, match body w with
       | (Normal a, w') => (Normal a, w')
       | (Abrupt e, w') => handler e w'
       end.

Definition modify (f : World → World) : JS unit := λ w, (Normal tt, f w).

Definition when (b : bool) (m : JS unit) : JS unit := if b then m else mret tt.

Definition record_call (c : Call) : JS unit := modify (set_calls (λ l, l ++ [c])).

Definition logger (e : LogEntry) : JS unit := modify (set_console (λ l, l ++ [e])).

(** [!x] is false exactly when [x] holds an object; [undefined] is falsy. *)
Definition present {A : Type} (x : option A) : bool :=
  match x with Some _ => true | None => false end.

(** ** The collaborators of the strategy *)

(** Modelled from the spec: the parts of workbox-core and of the package's
    [utils/messages.mjs] that [CacheFirst.mjs] imports but that are not in the
    source tree.  Each field gives what the collaborator answers; the
    strategy makes at most one call to each per request, so answers that
    depend only on the arguments of the call lose no behaviour.
    - [NODE_ENV] is [process.env.NODE_ENV];
    - [getRuntimeName] is [cacheNames.getRuntimeName], the pure function
      from the optional name to the canonical one;
    - [strategyStart] is [messages.strategyStart], the title of the log group;
    - [match_result] is the outcome of [cacheWrapper.match]: a stored
      response, [undefined], or a failure;
    - [fetch_result] is the outcome of [fetchWrapper.fetch]: a response or a
      failure;
    - [put_state] is the state of the promise that [cacheWrapper.put] hands
      back at the moment the call returns. *)
Record Host : Type :=
  { NODE_ENV : string;
    getRuntimeName : option string → string;
    strategyStart : string → FetchEvent → string;
    match_result : string → Request → option CallOptions → list Plugin →
                   Completion (option ResponseInit);
    fetch_result : Request → option CallOptions → list Plugin →
                   Completion ResponseInit;
    put_state : string → Request → Response → list Plugin → PromiseState }.

(** A facade that produces a response creates a new [Response] object with
    an unread body. *)
Definition new_response (i : ResponseInit) : JS Response := λ w,
  (Normal {| status := init_status i; headers := init_headers i;
             body := length (streams w) |},
   set_streams (λ l, l ++ [{| content := init_body i; disturbed := false |}]) w).

Definition type_error (message : string) : JsValue := JsError "TypeError" message.

(** Modelled from the spec: [Response.clone()] of the Fetch API, the
    duplication of a response into two independently readable copies.  It
    throws when the body was already read; otherwise the copy is a new object
    with a stream of its own carrying the same payload. *)
Definition Response_clone (r : Response) : JS Response := λ w,
  match streams w !! body r with
  | Some s =>
      if disturbed s then (Abrupt (type_error "Response body is already used"), w)
      else
        let copy := {| status := status r; headers := headers r;
                       body := length (streams w) |} in
        (Normal copy,
         set_calls (λ l, l ++ [CallClone r copy])
           (set_streams (λ l, l ++ [{| content := content s; disturbed := false |}]) w))
  | None => (Abrupt (type_error "no such body"), w)
  end.

(** Modelled from the spec: reading a response body to completion
    ([Response.text()]), which consumes its stream. *)
Definition Response_text (r : Response) : JS string := λ w,
  match streams w !! body r with
  | Some s =>
      if disturbed s then (Abrupt (type_error "body stream already read"), w)
      else (Normal (content s),
            set_streams (λ l, <[body r := {| content := content s; disturbed := true |}]> l) w)
  | None => (Abrupt (type_error "no such body"), w)
  end.

(** A body can still be read. *)
Definition readable (w : World) (r : Response) : bool :=
  match streams w !! body r with
  | Some s => negb (disturbed s)
  | None => false
  end.

Definition payload (w : World) (r : Response) : option string :=
  content <$> streams w !! body r.

(** Modelled from the spec: [event.waitUntil(promise)], the registration of a
    pending operation with the lifetime-extension mechanism of the event. *)
Definition event_waitUntil (event : FetchEvent) (promise : nat) : JS unit :=
  record_call (CallWaitUntil (event_id event) promise);;
  modify (set_lifetime (λ l, l ++ [(event_id event, promise)])).

(** Reading a field of [this]. *)
Definition this_field {A : Type} (this : nat) (field : CacheFirst → A) : JS A := λ w,
  match objects w !! this with
  | Some o => (Normal (field o), w)
  | None => (Abrupt (type_error "this is undefined"), w)
  end.

(** The object under construction joins the world; its index is [this]. *)
Definition new_object (o : CacheFirst) : JS nat := λ w,
  (Normal (length (objects w)), set_objects (λ l, l ++ [o]) w).

Section Strategy.

Variable host : Host.

(** [process.env.NODE_ENV !== 'production'] *)
Definition development : bool := negb (String.eqb (NODE_ENV host) "production").

(** Modelled from the spec: [cacheNames.getRuntimeName] of workbox-core. *)
Definition cacheNames_getRuntimeName (userCacheName : option string) : JS string :=
  record_call (CallGetRuntimeName userCacheName);;
  mret (getRuntimeName host userCacheName).

(** Modelled from the spec: [cacheWrapper.match] of workbox-core, the
    store lookup [match(storeId, request, options, plugins)]. *)
Definition cacheWrapper_match (cn : string) (rq : Request)
    (opts : option CallOptions) (pl : list Plugin) : JS (option Response) :=
  record_call (CallMatch cn rq opts pl);;
  match match_result host cn rq opts pl with
  | Normal (Some i) => r ← new_response i; mret (Some r)
  | Normal None => mret None
  | Abrupt e => throw e
  end.

(** Modelled from the spec: [fetchWrapper.fetch] of workbox-core, the
    network access [fetch(request, options, plugins)]. *)
Definition fetchWrapper_fetch (rq : Request) (opts : option CallOptions)
    (pl : list Plugin) : JS Response :=
  record_call (CallFetch rq opts pl);;
  match fetch_result host rq opts pl with
  | Normal i => new_response i
  | Abrupt e => throw e
  end.

(** Modelled from the spec: [cacheWrapper.put] of workbox-core, the store
    write [put(storeId, request, response, plugins)].  Being asynchronous,
    the call itself only starts the write and hands back its promise. *)
Definition cacheWrapper_put (cn : string) (rq : Request) (rs : Response)
    (pl : list Plugin) : JS nat := λ w,
  let p := length (promises w) in
  (Normal p,
   set_calls (λ l, l ++ [CallPut cn rq rs pl p])
     (set_promises (λ l, l ++ [put_state host cn rq rs pl]) w)).

(** [assert.isInstance(event, FetchEvent, ...)]: the event of the model is
    a [FetchEvent] by its type, so the assertion passes. *)
Definition assert_isInstance (event : FetchEvent) : JS unit := mret tt.

(** [new CacheFirst(options)], with [options = {}] when it is omitted. *)
Definition constructor (options : option Options) : JS nat :=
  let options := default {| cacheName := None; plugins := None |} options in
  cn ← cacheNames_getRuntimeName (cacheName options);
  let pl := default [] (plugins options) in
  new_object {| _cacheName := cn; _plugins := pl |}.

(** [async _getFromNetwork(event)] *)
Definition _getFromNetwork (this : nat) (event : FetchEvent) : JS Response :=
  pl ← this_field this _plugins;
  response ← fetchWrapper_fetch (request event) None pl;
  responseClone ← Response_clone response;
  cn ← this_field this _cacheName;
  pl' ← this_field this _plugins;
  promise ← cacheWrapper_put cn (request event) responseClone pl';
  event_waitUntil event promise;;
  mret response.

(** [async handle({event})]; the result is [undefined] or a response. *)
Definition handle (this : nat) (event : FetchEvent) : JS (option Response) :=
  when development
    (assert_isInstance event;;
     logger (GroupCollapsed (strategyStart host "CacheFirst" event)));;
  cn ← this_field this _cacheName;
  pl ← this_field this _plugins;
  response ← cacheWrapper_match cn (request event) None pl;
  '(response, error) ←
    (if negb (present response) then
       when development
         (cn ← this_field this _cacheName;
          logger (Log ("No response found in the '" +:+ cn +:+ "' cache. " +:+
                       "Will respond with a network request.")));;
       state ← try_catch
                 (r ← _getFromNetwork this event; mret (Some r, JsUndefined))
                 (λ err, mret (response, err));
       when development
         (if present (fst state) then logger (Log "Got response from network.")
          else logger (Log "Unable to get a response from the network."));;
       mret state
     else
       when development
         (cn ← this_field this _cacheName;
          logger (Log ("Found a cached response in the '" +:+ cn +:+ "' " +:+
                       "cache.")));;
       mret (response, JsUndefined));
  when development
    (logger (PrintFinalResponse response);; logger GroupEnd);;
  if truthy error then throw error else mret response.

End Strategy.

(** ** Sample hosts and inputs *)

Definition sample_host (env : string) (m : Completion (option ResponseInit))
    (f : Completion ResponseInit) (p : PromiseState) : Host :=
  {| NODE_ENV := env;
     getRuntimeName := λ n, default "workbox-runtime-/" n;
     strategyStart := λ name ev, "Using " +:+ name +:+ " to respond to '" +:+
                                 url (request ev) +:+ "'";
     match_result := λ _ _ _ _, m;
     fetch_result := λ _ _ _, f;
     put_state := λ _ _ _ _, p |}.

Definition styles_css : ResponseInit :=
  {| init_status := 200; init_headers := [("content-type", "text/css")];
     init_body := "body{margin:0}" |}.

Definition data_json : ResponseInit :=
  {| init_status := 200; init_headers := [("content-type", "application/json")];
     init_body := "{}" |}.

Definition failed_to_fetch : JsValue := JsError "TypeError" "Failed to fetch".

Definition sample_event : FetchEvent :=
  {| event_id := 7; request := {| url := "/data.json"; method := "GET" |} |}.

Definition sample_options : Options :=
  {| cacheName := Some "assets"; plugins := Some [{| plugin_id := 1 |}; {| plugin_id := 2 |}] |}.

(** The world right after [new CacheFirst(sample_options)]. *)
Definition sample_world (h : Host) : World :=
  snd (constructor h (Some sample_options) empty_world).

(** ** Describing what a run adds to the world *)

(** [w'] is [w] with the same strategy objects and with the given streams,
    promises, lifetime extensions and calls appended, in order. *)
Record Extends (w w' : World) (new_streams : list Stream)
    (new_promises : list PromiseState) (new_lifetime : list (nat * nat))
    (new_calls : list Call) : Prop :=
  { ext_objects : objects w' = objects w;
    ext_streams : streams w' = streams w ++ new_streams;
    ext_promises : promises w' = promises w ++ new_promises;
    ext_lifetime : lifetime w' = lifetime w ++ new_lifetime;
    ext_calls : calls w' = calls w ++ new_calls }.

(** The response object that [new_response i] creates in [w]. *)
Definition created (i : ResponseInit) (w : World) : Response :=
  {| status := init_status i; headers := init_headers i; body := length (streams w) |}.

(** The copy that cloning [created i w] creates right after it. *)
Definition cloned (i : ResponseInit) (w : World) : Response :=
  {| status := init_status i; headers := init_headers i; body := S (length (streams w)) |}.

Definition unread (i : ResponseInit) : Stream :=
  {| content := init_body i; disturbed := false |}.

Definition is_fetch (c : Call) : bool :=
  match c with CallFetch _ _ _ => true | _ => false end.

Definition is_put (c : Call) : bool :=
  match c with CallPut _ _ _ _ _ => true | _ => false end.

Definition is_clone (c : Call) : bool :=
  match c with CallClone _ _ => true | _ => false end.

Definition is_getRuntimeName (c : Call) : bool :=
  match c with CallGetRuntimeName _ => true | _ => false end.

Definition count (p : Call → bool) (l : list Call) : nat := length (filter (λ c, p c = true) l).

(** The plugin list handed over by a call, for the calls that take one. *)
Definition call_plugins (c : Call) : option (list Plugin) :=
  match c with
  | CallMatch _ _ _ pl | CallFetch _ _ pl | CallPut _ _ _ pl _ => Some pl
  | _ => None
  end.

(** The two facade calls as [handle] makes them for the object [self]:
    [cacheWrapper.match(this._cacheName, event.request, null, this._plugins)]
    and [fetchWrapper.fetch(event.request, null, this._plugins)]. *)
Definition store_match (host : Host) (self : CacheFirst) (event : FetchEvent)
    : JS (option Response) :=
  cacheWrapper_match host (_cacheName self) (request event) None (_plugins self).

Definition network_fetch (host : Host) (self : CacheFirst) (event : FetchEvent)
    : JS Response :=
  fetchWrapper_fetch host (request event) None (_plugins self).

(** The same host, except that the promise handed back by
    [cacheWrapper.put] is in state [s] when the call returns. *)
Definition with_put_state (host : Host) (s : PromiseState) : Host :=
  {| NODE_ENV := NODE_ENV host;
     getRuntimeName := getRuntimeName host;
     strategyStart := strategyStart host;
     match_result := match_result host;
     fetch_result := fetch_result host;
     put_state := λ _ _ _ _, s |}.

(** The calls made between two worlds. *)
Definition calls_since (w w' : World) : list Call := drop (length (calls w)) (calls w').

(** The log entries written between two worlds. *)
Definition console_since (w w' : World) : list LogEntry :=
  drop (length (console w)) (console w').

Definition is_log (e : LogEntry) : bool :=
  match e with Log _ => true | _ => false end.

Definition is_groupEnd (e : LogEntry) : bool :=
  match e with GroupEnd => true | _ => false end.

(** What [handle] hands to its caller: the response, or [undefined]. *)
Definition delivered (c : Completion (option Response)) : option Response :=
  match c with Normal r => r | Abrupt _ => None end.

(** ** The question about glob patterns

    The second file of the source: the interactive question that derives the
    glob pattern to precache from the file extensions found under a
    directory ([getAllFileExtensions], [askQuestion] and the exported
    function). *)

(** [s.includes(sub)] *)
Fixpoint includes (s sub : string) : bool :=
  String.prefix sub s ||
  match s with
  | EmptyString => false
  | String _ s' => includes s' sub
  end.

(** [s.replace(/^\./, '')]: a leading dot, when there is one, is removed. *)
Definition replace_leading_dot (s : string) : string :=
  match s with
  | String "."%char s' => s'
  | _ => s
  end.

(** [set.add(x)] on a [Set] of strings kept in insertion order. *)
Definition Set_add (x : string) (set : list string) : list string :=
  if decide (x ∈ set) then set else set ++ [x].

(** [new Error(message)] *)
Definition new_Error (message : string) : JsValue := JsError "Error" message.

Module GlobPatterns.

(** The key used for the question and the answer. *)
Definition name : string := "globPatterns".

(** One question of [inquirer.prompt]. *)
Record Question : Type :=
  { q_name : string; q_message : string; q_type : string;
    q_choices : list string; q_default : list string }.

(** Calls that leave the module, in the order they are made. *)
Inductive Call : Type :=
  | CallPromiseFiles (dir kind : string) (shortName recursive : bool)
  | CallPrompt (questions : list Question).

(** Modelled from the spec: what the module requires but the source tree
    does not hold.
    - [sep] and [extname] are [path.sep] and [path.extname] of Node;
    - [ignoredDirectories] is the constant of [../constants];
    - [errors] is the message table of [../errors];
    - [promiseFiles] is the outcome of [nodeDir.promiseFiles]: the paths of
      the files under the directory, or a failure;
    - [prompt] is the outcome of [inquirer.prompt]: the answers object, from
      question name to the selected choices, or a failure. *)
Record Cli : Type :=
  { sep : string;
    extname : string → string;
    ignoredDirectories : list string;
    errors : string → string;
    promiseFiles : string → string → bool → bool → Completion (list string);
    prompt : list Question → Completion (gmap string (list string)) }.

(** Asynchronous functions of the module: the state is the log of calls. *)
Definition Async (A : Type) : Type := list Call → Completion A * list Call.

#[global] Instance Async_ret : MRet Async := λ A a log, (Normal a, log).

#[global] Instance Async_bind : MBind Async := λ A B k m log,
  match m log with
  | (Normal a, log') => k a log'
  | (Abrupt e, log') => (Abrupt e, log')
  end.

Definition raise {A : Type} (e : JsValue) : Async A := λ log, (Abrupt e, log).

Definition of_outcome {A : Type} (c : Call) (o : Completion A) : Async A :=
  λ log, (o, log ++ [c]).

Section Functions.

Variable cli : Cli.

Definition nodeDir_promiseFiles (dir kind : string) (shortName recursive : bool)
    : Async (list string) :=
  of_outcome (CallPromiseFiles dir kind shortName recursive)
             (promiseFiles cli dir kind shortName recursive).

Definition inquirer_prompt (questions : list Question)
    : Async (gmap string (list string)) :=
  of_outcome (CallPrompt questions) (prompt cli questions).

(** The filter of [getAllFileExtensions]: no ignored substring occurs. *)
Definition kept (substringsToIgnore : list string) (filePath : string) : bool :=
  forallb (λ substring, negb (includes filePath substring)) substringsToIgnore.

(** The body of the [for] loop of [getAllFileExtensions]. *)
Definition add_extension (extensions : list string) (file : string) : list string :=
  let extension := extname cli file in
  if truthy (JsString extension)
  then Set_add (replace_leading_dot extension) extensions
  else extensions.

(** [async function getAllFileExtensions(globDirectory)] *)
Definition getAllFileExtensions (globDirectory : string) : Async (list string) :=
  let substringsToIgnore :=
    (λ directory, sep cli +:+ directory +:+ sep cli) <$> ignoredDirectories cli in
  allFiles ← nodeDir_promiseFiles globDirectory "file" false true;
  let filteredFiles := List.filter (kept substringsToIgnore) allFiles in
  let extensions := fold_left add_extension filteredFiles [] in
  mret extensions.

(** [async function askQuestion(globDirectory)] *)
Definition askQuestion (globDirectory : string) : Async (gmap string (list string)) :=
  fileExtensions ← getAllFileExtensions globDirectory;
  if (length fileExtensions =? 0)%nat
  then raise (new_Error (errors cli "no-file-extensions-found"))
  else inquirer_prompt
         [{| q_name := name;
             q_message := "Which file types would you like to precache?";
             q_type := "checkbox";
             q_choices := fileExtensions;
             q_default := fileExtensions |}].

(** [module.exports = async (globDirectory) => ...]; reading [length] of a
    missing answer throws a [TypeError]. *)
Definition module_exports (globDirectory : string) : Async (list string) :=
  answers ← askQuestion globDirectory;
  match answers !! name with
  | None => raise (type_error "Cannot read property 'length' of undefined")
  | Some extensions =>
      if (length extensions =? 0)%nat
      then raise (new_Error (errors cli "no-file-extensions-selected"))
      else mret ["**/*.{" +:+ String.concat "," extensions +:+ "}"]
  end.

End Functions.

End GlobPatterns.

(** ** A sample directory for the question *)

Definition sample_extname (file : string) : string :=
  if String.eqb file "/site/index.html" then ".html"
  else if String.eqb file "/site/about.html" then ".html"
  else if String.eqb file "/site/app.js" then ".js"
  else if String.eqb file "/site/node_modules/dep/dep.css" then ".css"
  else if String.eqb file "/site/notes." then "."
  else "".

Definition sample_files : list string :=
  ["/site/index.html"; "/site/node_modules/dep/dep.css"; "/site/LICENSE";
   "/site/app.js"; "/site/about.html"].

Definition sample_cli (files : Completion (list string))
    (answers : Completion (gmap string (list string))) : GlobPatterns.Cli :=
  {| GlobPatterns.sep := "/";
     GlobPatterns.extname := sample_extname;
     GlobPatterns.ignoredDirectories := ["node_modules"; ".git"];
     GlobPatterns.errors := λ key, "error: " +:+ key;
     GlobPatterns.promiseFiles := λ _ _ _ _, files;
     GlobPatterns.prompt := λ _, answers |}.

(** The question that [askQuestion] puts for the extensions found. *)
Definition the_question (fileExtensions : list string) : GlobPatterns.Question :=
  {| GlobPatterns.q_name := GlobPatterns.name;
     GlobPatterns.q_message := "Which file types would you like to precache?";
     GlobPatterns.q_type := "checkbox";
     GlobPatterns.q_choices := fileExtensions;
     GlobPatterns.q_default := fileExtensions |}.

(** A file counts for [getAllFileExtensions]: no ignored directory lies on
    its path. *)
Definition counted (cli : GlobPatterns.Cli) (file : string) : Prop :=
  ∀ directory, directory ∈ GlobPatterns.ignoredDirectories cli →
    includes file (GlobPatterns.sep cli +:+ directory +:+ GlobPatterns.sep cli) = false.

(** ** Running the monad, one step at a time *)

Lemma bind_run {A B : Type} (m : JS A) (k : A → JS B) (w : World) :
  (m ≫= k) w = match m w with
               | (Normal a, w') => k a w'
               | (Abrupt e, w') => (Abrupt e, w')
               end.
Proof. reflexivity. Qed.

Lemma this_field_run {A : Type} (field : CacheFirst → A) w this self :
  objects w !! this = Some self →
  this_field this field w = (Normal (field self), w).
Proof. intros H. unfold this_field. by rewrite H. Qed.

Lemma this_field_dangling {A : Type} (field : CacheFirst → A) w this :
  objects w !! this = None →
  this_field this field w = (Abrupt (type_error "this is undefined"), w).
Proof. intros H. unfold this_field. by rewrite H. Qed.

Lemma lookup_snoc {A : Type} (l : list A) (x : A) : (l ++ [x]) !! length l = Some x.
Proof. by apply list_lookup_middle. Qed.

Lemma Response_clone_created i w0 w :
  streams w = streams w0 ++ [unread i] →
  Response_clone (created i w0) w =
    (Normal (cloned i w0),
     set_calls (λ l, l ++ [CallClone (created i w0) (cloned i w0)])
       (set_streams (λ l, l ++ [unread i]) w)).
Proof.
  intros Hs. unfold Response_clone. simpl. rewrite Hs, lookup_snoc. simpl.
  rewrite length_app. simpl. rewrite Nat.add_1_r. reflexivity.
Qed.

Lemma try_catch_run {A : Type} (body : JS A) (handler : JsValue → JS A) w :
  try_catch body handler w = match body w with
                             | (Normal a, w') => (Normal a, w')
                             | (Abrupt e, w') => handler e w'
                             end.
Proof. reflexivity. Qed.

Section Runs.

Variable host : Host.
Variables (this : nat) (self : CacheFirst) (event : FetchEvent).

Local Ltac field :=
  match goal with
  | H : objects _ !! this = Some self |- _ =>
      rewrite (this_field_run _ _ this self) by (simpl; exact H)
  end.
Local Ltac run := repeat (first [rewrite bind_run | field]; simpl).

Lemma _getFromNetwork_ok w i :
  objects w !! this = Some self →
  fetch_result host (request event) None (_plugins self) = Normal i →
  ∃ w', _getFromNetwork host this event w = (Normal (created i w), w')
    ∧ console w' = console w
    ∧ Extends w w' [unread i; unread i]
        [put_state host (_cacheName self) (request event) (cloned i w) (_plugins self)]
        [(event_id event, length (promises w))]
        [CallFetch (request event) None (_plugins self);
         CallClone (created i w) (cloned i w);
         CallPut (_cacheName self) (request event) (cloned i w) (_plugins self)
                 (length (promises w));
         CallWaitUntil (event_id event) (length (promises w))].
Proof.
  intros Hthis Hf. unfold _getFromNetwork. run.
  unfold fetchWrapper_fetch. run. rewrite Hf. simpl.
  fold (created i w). rewrite bind_run.
  rewrite (Response_clone_created i w) by reflexivity. run.
  eexists. split; [reflexivity|]. split; [reflexivity|].
  split; simpl; rewrite <- ?app_assoc; reflexivity.
Qed.

Lemma _getFromNetwork_fail w e :
  objects w !! this = Some self →
  fetch_result host (request event) None (_plugins self) = Abrupt e →
  ∃ w', _getFromNetwork host this event w = (Abrupt e, w')
    ∧ console w' = console w
    ∧ Extends w w' [] [] [] [CallFetch (request event) None (_plugins self)].
Proof.
  intros Hthis Hf. unfold _getFromNetwork. run.
  unfold fetchWrapper_fetch. run. rewrite Hf. simpl.
  eexists. split; [reflexivity|]. split; [reflexivity|].
  split; simpl; rewrite ?app_nil_r; reflexivity.
Qed.

Lemma handle_hit w i :
  objects w !! this = Some self →
  match_result host (_cacheName self) (request event) None (_plugins self)
    = Normal (Some i) →
  ∃ w', handle host this event w = (Normal (Some (created i w)), w')
    ∧ Extends w w' [unread i] [] [] [CallMatch (_cacheName self) (request event) None (_plugins self)].
Proof.
  intros Hthis Hm. unfold handle.
  destruct (development host); run; unfold cacheWrapper_match; run;
    rewrite Hm; simpl; run;
    (eexists; split; [reflexivity|]);
    split; simpl; rewrite ?app_nil_r; reflexivity.
Qed.

Lemma handle_lookup_fail w e :
  objects w !! this = Some self →
  match_result host (_cacheName self) (request event) None (_plugins self)
    = Abrupt e →
  ∃ w', handle host this event w = (Abrupt e, w')
    ∧ Extends w w' [] [] [] [CallMatch (_cacheName self) (request event) None (_plugins self)].
Proof.
  intros Hthis Hm. unfold handle.
  destruct (development host); run; unfold cacheWrapper_match; run;
    rewrite Hm; simpl;
    (eexists; split; [reflexivity|]);
    split; simpl; rewrite ?app_nil_r; reflexivity.
Qed.

Lemma handle_miss_ok w i :
  objects w !! this = Some self →
  match_result host (_cacheName self) (request event) None (_plugins self)
    = Normal None →
  fetch_result host (request event) None (_plugins self) = Normal i →
  ∃ w', handle host this event w = (Normal (Some (created i w)), w')
    ∧ Extends w w' [unread i; unread i]
        [put_state host (_cacheName self) (request event) (cloned i w) (_plugins self)]
        [(event_id event, length (promises w))]
        [CallMatch (_cacheName self) (request event) None (_plugins self);
         CallFetch (request event) None (_plugins self);
         CallClone (created i w) (cloned i w);
         CallPut (_cacheName self) (request event) (cloned i w) (_plugins self)
                 (length (promises w));
         CallWaitUntil (event_id event) (length (promises w))].
Proof.
  intros Hthis Hm Hf. unfold handle.
  destruct (development host); run; unfold cacheWrapper_match; run;
    rewrite Hm; simpl; run; rewrite try_catch_run, bind_run;
    match goal with
    | |- context [_getFromNetwork host this event ?w0] =>
        destruct (_getFromNetwork_ok w0 i) as (w1 & -> & _ & [Ho Hs Hp Hl Hc]);
          [simpl; exact Hthis | exact Hf |]
    end;
    unfold created, cloned in *; simpl in *; run;
    (eexists; split; [reflexivity|]);
    split; simpl; rewrite ?Ho, ?Hs, ?Hp, ?Hl, ?Hc, <- ?app_assoc; reflexivity.
Qed.

(** A failing fetch: the caught value is thrown again when it is truthy;
    a falsy one leaves [error] falsy and [handle] returns [response], still
    [undefined]. *)
Lemma handle_miss_fail w e :
  objects w !! this = Some self →
  match_result host (_cacheName self) (request event) None (_plugins self)
    = Normal None →
  fetch_result host (request event) None (_plugins self) = Abrupt e →
  ∃ w', handle host this event w
          = (if truthy e then Abrupt e else Normal None, w')
    ∧ Extends w w' [] [] [] [CallMatch (_cacheName self) (request event) None (_plugins self); CallFetch (request event) None (_plugins self)].
Proof.
  intros Hthis Hm Hf. unfold handle.
  destruct (development host); run; unfold cacheWrapper_match; run;
    rewrite Hm; simpl; run; rewrite try_catch_run, bind_run;
    match goal with
    | |- context [_getFromNetwork host this event ?w0] =>
        destruct (_getFromNetwork_fail w0 e) as (w1 & -> & _ & [Ho Hs Hp Hl Hc]);
          [simpl; exact Hthis | exact Hf |]
    end;
    simpl in *; run; destruct (truthy e);
    (eexists; split; [reflexivity|]);
    split; simpl; rewrite ?Ho, ?Hs, ?Hp, ?Hl, ?Hc, <- ?app_assoc, ?app_nil_r; reflexivity.
Qed.

(** Without an object behind [this] the first field read throws. *)
Lemma handle_dangling w :
  objects w !! this = None →
  ∃ w', handle host this event w = (Abrupt (type_error "this is undefined"), w')
    ∧ Extends w w' [] [] [] [].
Proof.
  intros Hthis. unfold handle.
  destruct (development host); repeat (rewrite bind_run; simpl);
    rewrite this_field_dangling by (simpl; exact Hthis);
    (eexists; split; [reflexivity|]);
    split; simpl; rewrite ?app_nil_r; reflexivity.
Qed.

End Runs.

(** ** What the outcome of a facade call says about the host *)

Lemma store_match_hit host self event w r :
  (store_match host self event w).1 = Normal (Some r) →
  ∃ i, match_result host (_cacheName self) (request event) None (_plugins self)
         = Normal (Some i) ∧ r = created i w.
Proof.
  unfold store_match, cacheWrapper_match. rewrite bind_run. simpl.
  destruct (match_result _ _ _ _ _) as [[i|]|e]; simpl; intros H;
    try discriminate.
  exists i. split; [reflexivity|]. by injection H as <-.
Qed.

Lemma store_match_miss host self event w :
  (store_match host self event w).1 = Normal None →
  match_result host (_cacheName self) (request event) None (_plugins self)
    = Normal None.
Proof.
  unfold store_match, cacheWrapper_match. rewrite bind_run. simpl.
  by destruct (match_result _ _ _ _ _) as [[i|]|e].
Qed.

Lemma store_match_error host self event w e :
  (store_match host self event w).1 = Abrupt e →
  match_result host (_cacheName self) (request event) None (_plugins self)
    = Abrupt e.
Proof.
  unfold store_match, cacheWrapper_match. rewrite bind_run. simpl.
  destruct (match_result _ _ _ _ _) as [[i|]|e']; simpl; intros H;
    try discriminate.
  by injection H as <-.
Qed.

Lemma network_fetch_ok host self event w r :
  (network_fetch host self event w).1 = Normal r →
  ∃ i, fetch_result host (request event) None (_plugins self) = Normal i
       ∧ r = created i w.
Proof.
  unfold network_fetch, fetchWrapper_fetch. rewrite bind_run. simpl.
  destruct (fetch_result _ _ _ _) as [i|e]; simpl; intros H; try discriminate.
  exists i. split; [reflexivity|]. by injection H as <-.
Qed.

Lemma network_fetch_error host self event w e :
  (network_fetch host self event w).1 = Abrupt e →
  fetch_result host (request event) None (_plugins self) = Abrupt e.
Proof.
  unfold network_fetch, fetchWrapper_fetch. rewrite bind_run. simpl.
  destruct (fetch_result _ _ _ _) as [i|e']; simpl; intros H; try discriminate.
  by injection H as <-.
Qed.

Lemma calls_since_app w w' cs : calls w' = calls w ++ cs → calls_since w w' = cs.
Proof. intros H. unfold calls_since. rewrite H. apply drop_app_length. Qed.

Lemma lookup_snoc2_fst {A : Type} (l : list A) (x y : A) :
  (l ++ [x; y]) !! length l = Some x.
Proof. by apply list_lookup_middle. Qed.

Lemma lookup_snoc2_snd {A : Type} (l : list A) (x y : A) :
  (l ++ [x; y]) !! S (length l) = Some y.
Proof.
  change (l ++ [x; y]) with (l ++ [x] ++ [y]). rewrite app_assoc.
  apply list_lookup_middle. rewrite length_app. simpl. lia.
Qed.

(** ** The properties of the strategy *)

(** C1.  When the store match, called with the cache name and the plugin
    list of the object, returns a response, [handle] returns exactly that
    response; the match is the only call made, so the network facade is not
    invoked and no put occurs, and no write is registered. *)
Theorem handle_cache_hit host w this self event r :
  objects w !! this = Some self →
  (store_match host self event w).1 = Normal (Some r) →
  ∃ w', handle host this event w = (Normal (Some r), w')
    ∧ calls_since w w'
        = [CallMatch (_cacheName self) (request event) None (_plugins self)]
    ∧ count is_fetch (calls_since w w') = 0
    ∧ count is_put (calls_since w w') = 0
    ∧ promises w' = promises w
    ∧ lifetime w' = lifetime w.
Proof.
  intros Hthis Hm.
  destruct (store_match_hit _ _ _ _ _ Hm) as (i & Hi & ->).
  destruct (handle_hit host this self event w i Hthis Hi) as (w' & Hrun & [Ho Hs Hp Hl Hc]).
  exists w'. rewrite (calls_since_app _ _ _ Hc), Hp, Hl, !app_nil_r.
  by repeat split.
Qed.

Lemma handle_cache_hit_witness :
  let host := sample_host "development" (Normal (Some styles_css))
                (Abrupt failed_to_fetch) Pending in
  ∃ w', handle host 0 sample_event (sample_world host)
          = (Normal (Some (created styles_css (sample_world host))), w')
    ∧ count is_fetch (calls_since (sample_world host) w') = 0.
Proof.
  intros host.
  destruct (handle_cache_hit host (sample_world host) 0
              {| _cacheName := "assets";
                 _plugins := [{| plugin_id := 1 |}; {| plugin_id := 2 |}] |}
              sample_event (created styles_css (sample_world host)))
    as (w' & Hrun & _ & Hfetch & _).
  - reflexivity.
  - reflexivity.
  - exists w'. split; assumption.
Defined.

(** C9.  When the store match itself fails, [handle] fails with the same
    thrown value; the match is the only call made: neither the network
    fetch nor any put is invoked. *)
Theorem handle_lookup_error host w this self event e :
  objects w !! this = Some self →
  (store_match host self event w).1 = Abrupt e →
  ∃ w', handle host this event w = (Abrupt e, w')
    ∧ calls_since w w'
        = [CallMatch (_cacheName self) (request event) None (_plugins self)]
    ∧ count is_fetch (calls_since w w') = 0
    ∧ count is_put (calls_since w w') = 0
    ∧ promises w' = promises w
    ∧ lifetime w' = lifetime w.
Proof.
  intros Hthis Hm. apply store_match_error in Hm.
  destruct (handle_lookup_fail host this self event w e Hthis Hm)
    as (w' & Hrun & [Ho Hs Hp Hl Hc]).
  exists w'. rewrite (calls_since_app _ _ _ Hc), Hp, Hl, !app_nil_r.
  by repeat split.
Qed.

Lemma handle_lookup_error_witness :
  let host := sample_host "production" (Abrupt (JsError "QuotaExceededError" ""))
                (Normal data_json) Pending in
  ∃ w', handle host 0 sample_event (sample_world host)
          = (Abrupt (JsError "QuotaExceededError" ""), w')
    ∧ count is_fetch (calls_since (sample_world host) w') = 0.
Proof.
  intros host.
  destruct (handle_lookup_error host (sample_world host) 0
              {| _cacheName := "assets";
                 _plugins := [{| plugin_id := 1 |}; {| plugin_id := 2 |}] |}
              sample_event (JsError "QuotaExceededError" ""))
    as (w' & Hrun & _ & Hfetch & _).
  - reflexivity.
  - reflexivity.
  - exists w'. split; assumption.
Defined.

(** C3.  When the store match returns no response and the network fetch
    fails with a thrown value [e], the match and the fetch are the only
    calls made, no put is invoked and no write is registered; [handle]
    fails with exactly [e] when [e] is truthy, as every [Error] object is,
    and completes normally with [undefined] when [e] is falsy: the guard
    [if (error)] then skips the [throw] that the comment above it asks
    for. *)
Theorem handle_fetch_error host w this self event e :
  objects w !! this = Some self →
  (store_match host self event w).1 = Normal None →
  (network_fetch host self event w).1 = Abrupt e →
  ∃ w', handle host this event w
          = (if truthy e then Abrupt e else Normal None, w')
    ∧ calls_since w w'
        = [CallMatch (_cacheName self) (request event) None (_plugins self);
           CallFetch (request event) None (_plugins self)]
    ∧ count is_put (calls_since w w') = 0
    ∧ promises w' = promises w
    ∧ lifetime w' = lifetime w.
Proof.
  intros Hthis Hm Hf.
  apply store_match_miss in Hm. apply network_fetch_error in Hf.
  destruct (handle_miss_fail host this self event w _ Hthis Hm Hf)
    as (w' & Hrun & [Ho Hs Hp Hl Hc]).
  exists w'. rewrite (calls_since_app _ _ _ Hc), Hp, Hl, !app_nil_r.
  by repeat split.
Qed.

(** The failing input of C3: the store is empty and the fetch rejects with
    [undefined]; [handle] does not reject, it resolves with [undefined]. *)
Lemma handle_fetch_error_witness :
  let host := sample_host "production" (Normal None) (Abrupt JsUndefined) Pending in
  ∃ w', handle host 0 sample_event (sample_world host) = (Normal None, w')
    ∧ count is_put (calls_since (sample_world host) w') = 0.
Proof.
  intros host.
  destruct (handle_fetch_error host (sample_world host) 0
              {| _cacheName := "assets";
                 _plugins := [{| plugin_id := 1 |}; {| plugin_id := 2 |}] |}
              sample_event JsUndefined)
    as (w' & Hrun & _ & Hput & _).
  - reflexivity.
  - reflexivity.
  - reflexivity.
  - exists w'. split; assumption.
Defined.

(** C8.  The constructor takes an options object whose cache name and
    plugin list are both optional: the new object holds the runtime name
    resolved from the given name and the given plugins, or the empty list
    when there are none.  With no options, or with an empty options object,
    it holds the name resolved from the absent name and no plugins. *)
Theorem constructor_defaults host w :
  (∀ cn pl,
     let run := constructor host (Some {| cacheName := cn; plugins := pl |}) w in
     run.1 = Normal (length (objects w))
     ∧ objects run.2 = objects w ++
         [{| _cacheName := getRuntimeName host cn; _plugins := default [] pl |}])
  ∧ (let run := constructor host None w in
     run.1 = Normal (length (objects w))
     ∧ objects run.2 = objects w ++
         [{| _cacheName := getRuntimeName host None; _plugins := [] |}])
  ∧ (let run := constructor host (Some {| cacheName := None; plugins := None |}) w in
     run.1 = Normal (length (objects w))
     ∧ objects run.2 = objects w ++
         [{| _cacheName := getRuntimeName host None; _plugins := [] |}]).
Proof. repeat split. Qed.

(** Every run of [handle] adds one of four sequences of calls. *)
Lemma handle_shape host w this event :
  ∃ ss ps lt cs, Extends w (handle host this event w).2 ss ps lt cs
    ∧ ((objects w !! this = None ∧ cs = [])
       ∨ ∃ self, objects w !! this = Some self
           ∧ let m := CallMatch (_cacheName self) (request event) None (_plugins self) in
             let f := CallFetch (request event) None (_plugins self) in
             (cs = [m] ∨ cs = [m; f]
              ∨ ∃ r c p, cs = [m; f; CallClone r c;
                               CallPut (_cacheName self) (request event) c
                                       (_plugins self) p;
                               CallWaitUntil (event_id event) p])).
Proof.
  destruct (objects w !! this) as [self|] eqn:Hthis.
  - destruct (match_result host (_cacheName self) (request event) None (_plugins self))
      as [[i|]|e] eqn:Hm.
    + destruct (handle_hit host this self event w i Hthis Hm) as (w' & -> & He).
      do 4 eexists. split; [exact He|]. right. exists self. simpl. auto.
    + destruct (fetch_result host (request event) None (_plugins self))
        as [i|e] eqn:Hf.
      * destruct (handle_miss_ok host this self event w i Hthis Hm Hf)
          as (w' & -> & He).
        do 4 eexists. split; [exact He|]. right. exists self. simpl.
        split; [reflexivity|]. right. right. eauto.
      * destruct (handle_miss_fail host this self event w e Hthis Hm Hf)
          as (w' & -> & He).
        do 4 eexists. split; [exact He|]. right. exists self. simpl. auto.
    + destruct (handle_lookup_fail host this self event w e Hthis Hm)
        as (w' & -> & He).
      do 4 eexists. split; [exact He|]. right. exists self. simpl. auto.
  - destruct (handle_dangling host this event w Hthis) as (w' & -> & He).
    do 4 eexists. split; [exact He|]. left. auto.
Qed.

(** C7.  The runtime name is computed by the constructor, with exactly one
    call to [getRuntimeName]; no run of [handle] calls it again, and every
    run of [handle] leaves the strategy objects, hence the fields
    [_cacheName] and [_plugins] of each, as they were, so that the next
    request observes the same name and plugin list. *)
Theorem instance_is_stateless host :
  (∀ options w,
     calls_since w (constructor host options w).2
       = [CallGetRuntimeName
            (cacheName (default {| cacheName := None; plugins := None |} options))])
  ∧ (∀ w this event,
       let w' := (handle host this event w).2 in
       objects w' = objects w
       ∧ count is_getRuntimeName (calls_since w w') = 0)
  ∧ (∀ w this event event',
       let w' := (handle host this event w).2 in
       objects (handle host this event' w').2 !! this = objects w !! this).
Proof.
  assert (Hframe : ∀ w this event,
            let w' := (handle host this event w).2 in
            objects w' = objects w
            ∧ count is_getRuntimeName (calls_since w w') = 0).
  { intros w this event w'. subst w'.
    destruct (handle_shape host w this event) as (ss & ps & lt & cs & [Ho _ _ _ Hc] & Hcs).
    split; [exact Ho|]. rewrite (calls_since_app _ _ _ Hc).
    destruct Hcs as [[_ ->]|(self & _ & [->|[->|(r & c & p & ->)]])]; reflexivity. }
  split; [|split].
  - intros options w. apply calls_since_app. reflexivity.
  - exact Hframe.
  - intros w this event event' w'. subst w'.
    destruct (Hframe (handle host this event w).2 this event') as [-> _].
    destruct (Hframe w this event) as [-> _]. reflexivity.
Qed.

(** Reading one body to completion leaves every other stream as it was. *)
Lemma Response_text_independent w a b :
  body a ≠ body b → readable w a = true →
  ∃ t w', Response_text a w = (Normal t, w')
    ∧ payload w a = Some t
    ∧ readable w' a = false
    ∧ streams w' !! body b = streams w !! body b.
Proof.
  intros Hne Hr. unfold readable in Hr. unfold Response_text, payload.
  destruct (streams w !! body a) as [s|] eqn:Hs; [|discriminate].
  destruct (disturbed s); [discriminate|].
  do 2 eexists. split; [reflexivity|]. split; [reflexivity|]. simpl. split.
  - unfold readable. simpl. rewrite list_lookup_insert_eq; [reflexivity|].
    by apply lookup_lt_Some in Hs.
  - by apply list_lookup_insert_ne.
Qed.

(** The state of the two copies when [handle] returns from a miss followed
    by a successful fetch. *)
Lemma copies_after_miss w w' i ps lt cs :
  Extends w w' [unread i; unread i] ps lt cs →
  streams w' !! body (created i w) = Some (unread i)
  ∧ streams w' !! body (cloned i w) = Some (unread i).
Proof.
  intros [_ Hs _ _ _]. rewrite Hs. simpl. split.
  - apply lookup_snoc2_fst.
  - apply lookup_snoc2_snd.
Qed.

(** C10.  On a miss followed by a successful fetch, the response that
    [handle] returns is the object produced by the network facade, and the
    response passed to put is the clone made of it, a different object. *)
Theorem handle_returns_original_puts_clone host w this self event r :
  objects w !! this = Some self →
  (store_match host self event w).1 = Normal None →
  (network_fetch host self event w).1 = Normal r →
  ∃ c p w', handle host this event w = (Normal (Some r), w')
    ∧ (Response_clone r (network_fetch host self event w).2).1 = Normal c
    ∧ c ≠ r
    ∧ calls_since w w'
        = [CallMatch (_cacheName self) (request event) None (_plugins self);
           CallFetch (request event) None (_plugins self);
           CallClone r c;
           CallPut (_cacheName self) (request event) c (_plugins self) p;
           CallWaitUntil (event_id event) p].
Proof.
  intros Hthis Hm Hf.
  destruct (network_fetch_ok _ _ _ _ _ Hf) as (i & Hi & ->).
  apply store_match_miss in Hm.
  destruct (handle_miss_ok host this self event w i Hthis Hm Hi)
    as (w' & Hrun & [Ho Hs Hp Hl Hc]).
  exists (cloned i w), (length (promises w)), w'.
  split; [exact Hrun|]. split; [|split].
  - unfold network_fetch, fetchWrapper_fetch. rewrite bind_run. simpl.
    rewrite Hi. simpl. rewrite (Response_clone_created i w); reflexivity.
  - unfold cloned, created. intros [=]. lia.
  - by apply calls_since_app.
Qed.

Lemma handle_returns_original_puts_clone_witness :
  let host := sample_host "production" (Normal None) (Normal data_json) Pending in
  ∃ c p w', handle host 0 sample_event (sample_world host)
              = (Normal (Some (created data_json (sample_world host))), w')
    ∧ c ≠ created data_json (sample_world host)
    ∧ CallPut "assets" (request sample_event) c
        [{| plugin_id := 1 |}; {| plugin_id := 2 |}] p ∈ calls_since (sample_world host) w'.
Proof.
  intros host.
  destruct (handle_returns_original_puts_clone host (sample_world host) 0
              {| _cacheName := "assets";
                 _plugins := [{| plugin_id := 1 |}; {| plugin_id := 2 |}] |}
              sample_event (created data_json (sample_world host)))
    as (c & p & w' & Hrun & _ & Hne & Hcalls).
  - reflexivity.
  - reflexivity.
  - reflexivity.
  - exists c, p, w'. split; [exact Hrun|]. split; [exact Hne|].
    rewrite Hcalls. simpl. repeat constructor.
Defined.

(** C4.  On a miss followed by a successful fetch there is exactly one
    duplication, made after the fetch and before the put; the returned
    response and the one passed to put have different body streams carrying
    the same payload, both still unread when [handle] returns, and reading
    either one to completion leaves the other readable with its payload. *)
Theorem handle_duplicates_once host w this self event r :
  objects w !! this = Some self →
  (store_match host self event w).1 = Normal None →
  (network_fetch host self event w).1 = Normal r →
  ∃ c p w', handle host this event w = (Normal (Some r), w')
    ∧ calls_since w w'
        = [CallMatch (_cacheName self) (request event) None (_plugins self);
           CallFetch (request event) None (_plugins self);
           CallClone r c;
           CallPut (_cacheName self) (request event) c (_plugins self) p;
           CallWaitUntil (event_id event) p]
    ∧ count is_clone (calls_since w w') = 1
    ∧ body r ≠ body c
    ∧ readable w' r = true ∧ readable w' c = true
    ∧ payload w' c = payload w' r
    ∧ (∃ t w'', Response_text c w' = (Normal t, w'')
         ∧ readable w'' r = true ∧ payload w'' r = payload w' r)
    ∧ (∃ t w'', Response_text r w' = (Normal t, w'')
         ∧ readable w'' c = true ∧ payload w'' c = payload w' c).
Proof.
  intros Hthis Hm Hf.
  destruct (network_fetch_ok _ _ _ _ _ Hf) as (i & Hi & ->).
  apply store_match_miss in Hm.
  destruct (handle_miss_ok host this self event w i Hthis Hm Hi)
    as (w' & Hrun & He).
  destruct (copies_after_miss _ _ _ _ _ _ He) as [Hr Hc].
  assert (Hne : body (created i w) ≠ body (cloned i w)) by (simpl; lia).
  assert (Hrr : readable w' (created i w) = true) by (unfold readable; by rewrite Hr).
  assert (Hrc : readable w' (cloned i w) = true) by (unfold readable; by rewrite Hc).
  exists (cloned i w), (length (promises w)), w'.
  split; [exact Hrun|].
  rewrite (calls_since_app _ _ _ (ext_calls _ _ _ _ _ _ He)).
  split; [reflexivity|]. split; [reflexivity|]. split; [exact Hne|].
  split; [exact Hrr|]. split; [exact Hrc|].
  split; [unfold payload; by rewrite Hr, Hc|]. split.
  - destruct (Response_text_independent w' (cloned i w) (created i w))
      as (t & w'' & Hread & _ & _ & Hsame); [by apply not_eq_sym | exact Hrc |].
    exists t, w''. split; [exact Hread|].
    unfold readable, payload in *. by rewrite Hsame.
  - destruct (Response_text_independent w' (created i w) (cloned i w))
      as (t & w'' & Hread & _ & _ & Hsame); [exact Hne | exact Hrr |].
    exists t, w''. split; [exact Hread|].
    unfold readable, payload in *. by rewrite Hsame.
Qed.

Lemma handle_duplicates_once_witness :
  let host := sample_host "development" (Normal None) (Normal data_json) Pending in
  ∃ c w', handle host 0 sample_event (sample_world host)
              = (Normal (Some (created data_json (sample_world host))), w')
    ∧ count is_clone (calls_since (sample_world host) w') = 1
    ∧ (∃ t w'', Response_text c w' = (Normal t, w'')
         ∧ readable w'' (created data_json (sample_world host)) = true).
Proof.
  intros host.
  destruct (handle_duplicates_once host (sample_world host) 0
              {| _cacheName := "assets";
                 _plugins := [{| plugin_id := 1 |}; {| plugin_id := 2 |}] |}
              sample_event (created data_json (sample_world host)))
    as (c & p & w' & Hrun & _ & Hone & _ & _ & _ & _ & (t & w'' & Hread & Hr & _) & _).
  - reflexivity.
  - reflexivity.
  - reflexivity.
  - exists c, w'. split; [exact Hrun|]. split; [exact Hone|].
    exists t, w''. split; assumption.
Defined.

(** C5.  On a miss followed by a successful fetch, [handle] delivers the
    response without waiting for the put: the promise of the put is new, it
    is still in the state in which the put call handed it back when [handle]
    returns, it is registered with [event.waitUntil], and [handle] delivers
    the same response whether that promise is pending, fulfilled or
    rejected. *)
Theorem handle_does_not_wait_for_put host w this self event r :
  objects w !! this = Some self →
  (store_match host self event w).1 = Normal None →
  (network_fetch host self event w).1 = Normal r →
  ∃ c p w', handle host this event w = (Normal (Some r), w')
    ∧ CallPut (_cacheName self) (request event) c (_plugins self) p
        ∈ calls_since w w'
    ∧ promises w !! p = None
    ∧ promises w' !! p
        = Some (put_state host (_cacheName self) (request event) c (_plugins self))
    ∧ last (calls_since w w') = Some (CallWaitUntil (event_id event) p)
    ∧ (event_id event, p) ∈ lifetime w'
    ∧ ∀ s, ∃ ws, handle (with_put_state host s) this event w = (Normal (Some r), ws)
             ∧ promises ws !! p = Some s
             ∧ (event_id event, p) ∈ lifetime ws.
Proof.
  intros Hthis Hm Hf.
  destruct (network_fetch_ok _ _ _ _ _ Hf) as (i & Hi & ->).
  apply store_match_miss in Hm.
  destruct (handle_miss_ok host this self event w i Hthis Hm Hi)
    as (w' & Hrun & [Ho Hs Hp Hl Hc]).
  exists (cloned i w), (length (promises w)), w'.
  split; [exact Hrun|]. rewrite (calls_since_app _ _ _ Hc), Hp, Hl.
  split; [repeat constructor|].
  split; [by apply lookup_ge_None|].
  split; [apply lookup_snoc|].
  split; [reflexivity|].
  split; [apply elem_of_app; right; constructor|].
  intros s.
  destruct (handle_miss_ok (with_put_state host s) this self event w i Hthis Hm Hi)
    as (ws & Hrun' & [_ _ Hp' Hl' _]).
  exists ws. split; [exact Hrun'|]. rewrite Hp', Hl'. split.
  - apply lookup_snoc.
  - apply elem_of_app. right. constructor.
Qed.

Lemma handle_does_not_wait_for_put_witness :
  let host := sample_host "production" (Normal None) (Normal data_json) Pending in
  ∃ p w', handle host 0 sample_event (sample_world host)
            = (Normal (Some (created data_json (sample_world host))), w')
    ∧ promises w' !! p = Some Pending
    ∧ (event_id sample_event, p) ∈ lifetime w'.
Proof.
  intros host.
  destruct (handle_does_not_wait_for_put host (sample_world host) 0
              {| _cacheName := "assets";
                 _plugins := [{| plugin_id := 1 |}; {| plugin_id := 2 |}] |}
              sample_event (created data_json (sample_world host)))
    as (c & p & w' & Hrun & _ & _ & Hstate & _ & Hreg & _).
  - reflexivity.
  - reflexivity.
  - reflexivity.
  - exists p, w'. split; [exact Hrun|]. split; [exact Hstate | exact Hreg].
Defined.

(** C6.  The constructor keeps the plugin list it is given, in the given
    order; every call of a run of [handle] that takes a plugin list takes
    the list held by the object; and on a miss followed by a successful
    fetch the match, the fetch and the put each take that list. *)
Theorem plugins_passed_unchanged host w this self event :
  objects w !! this = Some self →
  (∀ cn pl w0,
     objects (constructor host (Some {| cacheName := cn; plugins := Some pl |}) w0).2
       !! length (objects w0)
     = Some {| _cacheName := getRuntimeName host cn; _plugins := pl |})
  ∧ Forall (λ c, ∀ pl, call_plugins c = Some pl → pl = _plugins self)
      (calls_since w (handle host this event w).2)
  ∧ ((store_match host self event w).1 = Normal None →
     (∃ r, (network_fetch host self event w).1 = Normal r) →
     call_plugins <$> calls_since w (handle host this event w).2
       = [Some (_plugins self); Some (_plugins self); None;
          Some (_plugins self); None]).
Proof.
  intros Hthis. split; [|split].
  - intros cn pl w0. simpl. apply lookup_snoc.
  - destruct (handle_shape host w this event)
      as (ss & ps & lt & cs & [_ _ _ _ Hc] & Hcs).
    rewrite (calls_since_app _ _ _ Hc).
    destruct Hcs as [[_ ->]|(self' & Hself & Hcs)]; [constructor|].
    rewrite Hthis in Hself. injection Hself as <-. simpl in Hcs.
    destruct Hcs as [->|[->|(r & c & p & ->)]];
      repeat constructor; simpl; congruence.
  - intros Hm [r Hf].
    destruct (network_fetch_ok _ _ _ _ _ Hf) as (i & Hi & ->).
    apply store_match_miss in Hm.
    destruct (handle_miss_ok host this self event w i Hthis Hm Hi)
      as (w' & -> & [_ _ _ _ Hc]).
    simpl. rewrite (calls_since_app _ _ _ Hc). reflexivity.
Qed.

Lemma plugins_passed_unchanged_witness :
  let host := sample_host "production" (Normal None) (Normal data_json) Pending in
  call_plugins <$> calls_since (sample_world host)
                     (handle host 0 sample_event (sample_world host)).2
    = [Some [{| plugin_id := 1 |}; {| plugin_id := 2 |}];
       Some [{| plugin_id := 1 |}; {| plugin_id := 2 |}]; None;
       Some [{| plugin_id := 1 |}; {| plugin_id := 2 |}]; None].
Proof.
  intros host.
  destruct (plugins_passed_unchanged host (sample_world host) 0
              {| _cacheName := "assets";
                 _plugins := [{| plugin_id := 1 |}; {| plugin_id := 2 |}] |}
              sample_event) as (_ & _ & Hall).
  - reflexivity.
  - apply Hall.
    + reflexivity.
    + exists (created data_json (sample_world host)). reflexivity.
Defined.

(** C2.  No run of [handle] makes more than one fetch or more than one
    put.  For the object built by the constructor, when the store match
    returns no response and the fetch succeeds, [handle] returns the fetched
    response with its payload intact and unread, after exactly one fetch and
    exactly one put; the put takes the runtime name resolved by the
    constructor and a response with the same status, headers and payload as
    the returned one. *)
Theorem handle_cache_miss host :
  (∀ w this event,
     (count is_fetch (calls_since w (handle host this event w).2) ≤ 1)%nat
     ∧ (count is_put (calls_since w (handle host this event w).2) ≤ 1)%nat)
  ∧ (∀ options w0 this w event r,
       let opts := default {| cacheName := None; plugins := None |} options in
       let self := {| _cacheName := getRuntimeName host (cacheName opts);
                      _plugins := default [] (plugins opts) |} in
       (constructor host options w0).1 = Normal this →
       objects w !! this = objects (constructor host options w0).2 !! this →
       (store_match host self event w).1 = Normal None →
       (network_fetch host self event w).1 = Normal r →
       ∃ c p w', handle host this event w = (Normal (Some r), w')
         ∧ payload w' r = payload (network_fetch host self event w).2 r
         ∧ readable w' r = true
         ∧ calls_since w w'
             = [CallMatch (_cacheName self) (request event) None (_plugins self);
                CallFetch (request event) None (_plugins self);
                CallClone r c;
                CallPut (getRuntimeName host (cacheName opts)) (request event) c
                        (_plugins self) p;
                CallWaitUntil (event_id event) p]
         ∧ count is_fetch (calls_since w w') = 1
         ∧ count is_put (calls_since w w') = 1
         ∧ status c = status r ∧ headers c = headers r
         ∧ payload w' c = payload w' r).
Proof.
  split.
  - intros w this event.
    destruct (handle_shape host w this event)
      as (ss & ps & lt & cs & [_ _ _ _ Hc] & Hcs).
    rewrite (calls_since_app _ _ _ Hc).
    destruct Hcs as [[_ ->]|(self & _ & [->|[->|(r & c & p & ->)]])];
      unfold count; simpl; lia.
  - intros options w0 this w event r opts self Hnew Hsame Hm Hf.
    assert (Hthis : objects w !! this = Some self).
    { rewrite Hsame. simpl in Hnew. injection Hnew as <-. simpl. apply lookup_snoc. }
    assert (Hcn : getRuntimeName host (cacheName opts) = _cacheName self)
      by reflexivity.
    rewrite Hcn. clearbody self. clear Hnew Hsame Hcn.
    destruct (network_fetch_ok _ _ _ _ _ Hf) as (i & Hi & ->).
    apply store_match_miss in Hm.
    destruct (handle_miss_ok host this self event w i Hthis Hm Hi)
      as (w' & Hrun & He).
    destruct (copies_after_miss _ _ _ _ _ _ He) as [Hr Hc].
    exists (cloned i w), (length (promises w)), w'.
    split; [exact Hrun|].
    rewrite (calls_since_app _ _ _ (ext_calls _ _ _ _ _ _ He)).
    split.
    { unfold payload. rewrite Hr. unfold network_fetch, fetchWrapper_fetch.
      rewrite bind_run. simpl. rewrite Hi. simpl. by rewrite lookup_snoc. }
    split; [unfold readable; by rewrite Hr|].
    split; [reflexivity|]. split; [reflexivity|]. split; [reflexivity|].
    split; [reflexivity|]. split; [reflexivity|].
    unfold payload. by rewrite Hr, Hc.
Qed.

Lemma handle_cache_miss_witness :
  let host := sample_host "development" (Normal None) (Normal data_json) Pending in
  ∃ c p w', handle host 0 sample_event (sample_world host)
              = (Normal (Some (created data_json (sample_world host))), w')
    ∧ count is_put (calls_since (sample_world host) w') = 1
    ∧ CallPut "assets" (request sample_event) c
        [{| plugin_id := 1 |}; {| plugin_id := 2 |}] p
        ∈ calls_since (sample_world host) w'
    ∧ payload w' c = Some "{}".
Proof.
  intros host.
  destruct (proj2 (handle_cache_miss host) (Some sample_options) empty_world 0
              (sample_world host) sample_event
              (created data_json (sample_world host)))
    as (c & p & w' & Hrun & Hpay & _ & Hcalls & _ & Hone & _ & _ & Hsame).
  - reflexivity.
  - reflexivity.
  - reflexivity.
  - reflexivity.
  - exists c, p, w'. split; [exact Hrun|]. split; [exact Hone|]. split.
    + rewrite Hcalls. simpl. repeat constructor.
    + rewrite Hsame, Hpay. reflexivity.
Defined.

(** ** What [handle] writes to the console *)

Section Console.

Variable host : Host.
Variables (this : nat) (self : CacheFirst) (event : FetchEvent).

Local Ltac field :=
  match goal with
  | H : objects _ !! this = Some self |- _ =>
      rewrite (this_field_run _ _ this self) by (simpl; exact H)
  end.
Local Ltac run := repeat (first [rewrite bind_run | field]; simpl).

(** The whole log of one run, by the outcome of the match and of the fetch. *)
Lemma handle_console w :
  objects w !! this = Some self →
  console (handle host this event w).2 = console w ++
    (if development host then
       GroupCollapsed (strategyStart host "CacheFirst" event) ::
       match match_result host (_cacheName self) (request event) None (_plugins self) with
       | Abrupt _ => []
       | Normal (Some i) =>
           [Log ("Found a cached response in the '" +:+ _cacheName self +:+ "' " +:+
                 "cache.");
            PrintFinalResponse (Some (created i w)); GroupEnd]
       | Normal None =>
           Log ("No response found in the '" +:+ _cacheName self +:+ "' cache. " +:+
                "Will respond with a network request.") ::
           match fetch_result host (request event) None (_plugins self) with
           | Normal i =>
               [Log "Got response from network.";
                PrintFinalResponse (Some (created i w)); GroupEnd]
           | Abrupt _ =>
               [Log "Unable to get a response from the network.";
                PrintFinalResponse None; GroupEnd]
           end
       end
     else []).
Proof.
  intros Hthis. unfold handle.
  destruct (match_result host (_cacheName self) (request event) None (_plugins self))
    as [[i|]|e] eqn:Hm.
  - destruct (development host); run; unfold cacheWrapper_match; run;
      rewrite Hm; simpl; run; rewrite <- ?app_assoc, ?app_nil_r; reflexivity.
  - destruct (fetch_result host (request event) None (_plugins self)) as [i|e] eqn:Hf.
    + destruct (development host); run; unfold cacheWrapper_match; run;
        rewrite Hm; simpl; run; rewrite try_catch_run, bind_run;
        match goal with
        | |- context [_getFromNetwork host this event ?w0] =>
            destruct (_getFromNetwork_ok host this self event w0 i)
              as (w1 & -> & Hcon & _); [simpl; exact Hthis | exact Hf |]
        end;
        unfold created in *; simpl in *; run; rewrite Hcon;
        simpl; rewrite <- ?app_assoc, ?app_nil_r; reflexivity.
    + destruct (development host); run; unfold cacheWrapper_match; run;
        rewrite Hm; simpl; run; rewrite try_catch_run, bind_run;
        match goal with
        | |- context [_getFromNetwork host this event ?w0] =>
            destruct (_getFromNetwork_fail host this self event w0 e)
              as (w1 & -> & Hcon & _); [simpl; exact Hthis | exact Hf |]
        end;
        simpl in *; run; destruct (truthy e); simpl; rewrite Hcon;
        simpl; rewrite <- ?app_assoc, ?app_nil_r; reflexivity.
  - destruct (development host); run; unfold cacheWrapper_match; run;
      rewrite Hm; simpl; rewrite <- ?app_assoc, ?app_nil_r; reflexivity.
Qed.

(** Without an object behind [this], only the group title is logged. *)
Lemma handle_console_dangling w :
  objects w !! this = None →
  console (handle host this event w).2 = console w ++
    (if development host
     then [GroupCollapsed (strategyStart host "CacheFirst" event)] else []).
Proof.
  intros Hthis. unfold handle.
  destruct (development host); repeat (rewrite bind_run; simpl);
    rewrite this_field_dangling by (simpl; exact Hthis);
    simpl; rewrite ?app_nil_r; reflexivity.
Qed.

End Console.

Lemma console_since_app w w' es :
  console w' = console w ++ es → console_since w w' = es.
Proof. intros H. unfold console_since. rewrite H. apply drop_app_length. Qed.

Lemma store_match_outcome host self event w :
  (store_match host self event w).1 =
    match match_result host (_cacheName self) (request event) None (_plugins self) with
    | Normal (Some i) => Normal (Some (created i w))
    | Normal None => Normal None
    | Abrupt e => Abrupt e
    end.
Proof.
  unfold store_match, cacheWrapper_match. rewrite bind_run. simpl.
  by destruct (match_result _ _ _ _ _) as [[i|]|e].
Qed.

Lemma network_fetch_outcome host self event w :
  (network_fetch host self event w).1 =
    match fetch_result host (request event) None (_plugins self) with
    | Normal i => Normal (created i w)
    | Abrupt e => Abrupt e
    end.
Proof.
  unfold network_fetch, fetchWrapper_fetch. rewrite bind_run. simpl.
  by destruct (fetch_result _ _ _ _) as [i|e].
Qed.

(** The completion of every run on a live object, by the outcome of the
    match and of the fetch. *)
Lemma handle_outcome host w this self event :
  objects w !! this = Some self →
  (handle host this event w).1 =
    match (store_match host self event w).1 with
    | Abrupt e => Abrupt e
    | Normal (Some r) => Normal (Some r)
    | Normal None =>
        match (network_fetch host self event w).1 with
        | Normal r => Normal (Some r)
        | Abrupt e => if truthy e then Abrupt e else Normal None
        end
    end.
Proof.
  intros Hthis. rewrite store_match_outcome, network_fetch_outcome.
  destruct (match_result host (_cacheName self) (request event) None (_plugins self))
    as [[i|]|e] eqn:Hm.
  - by destruct (handle_hit host this self event w i Hthis Hm) as (w' & -> & _).
  - destruct (fetch_result host (request event) None (_plugins self)) as [i|e] eqn:Hf.
    + by destruct (handle_miss_ok host this self event w i Hthis Hm Hf) as (w' & -> & _).
    + by destruct (handle_miss_fail host this self event w e Hthis Hm Hf) as (w' & -> & _).
  - by destruct (handle_lookup_fail host this self event w e Hthis Hm) as (w' & -> & _).
Qed.

(** The calls of every run on a live object, by the same outcomes. *)
Lemma handle_calls host w this self event :
  objects w !! this = Some self →
  ∃ rest, calls_since w (handle host this event w).2
            = CallMatch (_cacheName self) (request event) None (_plugins self) :: rest
    ∧ match (store_match host self event w).1 with
      | Normal None =>
          match (network_fetch host self event w).1 with
          | Normal r =>
              ∃ c p, rest = [CallFetch (request event) None (_plugins self);
                             CallClone r c;
                             CallPut (_cacheName self) (request event) c (_plugins self) p;
                             CallWaitUntil (event_id event) p]
          | Abrupt _ => rest = [CallFetch (request event) None (_plugins self)]
          end
      | _ => rest = []
      end.
Proof.
  intros Hthis. rewrite store_match_outcome, network_fetch_outcome.
  destruct (match_result host (_cacheName self) (request event) None (_plugins self))
    as [[i|]|e] eqn:Hm.
  - destruct (handle_hit host this self event w i Hthis Hm) as (w' & -> & [_ _ _ _ Hc]).
    eexists. split; [by apply calls_since_app|]. reflexivity.
  - destruct (fetch_result host (request event) None (_plugins self)) as [i|e] eqn:Hf.
    + destruct (handle_miss_ok host this self event w i Hthis Hm Hf)
        as (w' & -> & [_ _ _ _ Hc]).
      eexists. split; [by apply calls_since_app|]. eauto.
    + destruct (handle_miss_fail host this self event w e Hthis Hm Hf)
        as (w' & -> & [_ _ _ _ Hc]).
      eexists. split; [by apply calls_since_app|]. reflexivity.
  - destruct (handle_lookup_fail host this self event w e Hthis Hm)
      as (w' & -> & [_ _ _ _ Hc]).
    eexists. split; [by apply calls_since_app|]. reflexivity.
Qed.

(** ** Further properties of [handle] *)

(** X1.  In production [handle] writes nothing to the console, whatever the
    run does. *)
Theorem handle_silent_in_production host w this event :
  NODE_ENV host = "production" →
  console (handle host this event w).2 = console w.
Proof.
  intros Henv.
  assert (Hdev : development host = false) by (unfold development; by rewrite Henv).
  destruct (objects w !! this) as [self|] eqn:Hthis.
  - rewrite (handle_console host this self event w Hthis), Hdev. apply app_nil_r.
  - rewrite (handle_console_dangling host this event w Hthis), Hdev. apply app_nil_r.
Qed.

Lemma handle_silent_in_production_witness :
  let host := sample_host "production" (Normal None) (Normal data_json) Pending in
  console (handle host 0 sample_event (sample_world host)).2 = [].
Proof.
  intros host.
  rewrite (handle_silent_in_production host (sample_world host) 0 sample_event);
    reflexivity.
Defined.

(** X2.  Outside production, when the store match fails the log group that
    [handle] opened is left open: the title of the group is the only entry
    written, and no [groupEnd] follows. *)
Theorem handle_leaves_group_open host w this self event e :
  NODE_ENV host ≠ "production" →
  objects w !! this = Some self →
  (store_match host self event w).1 = Abrupt e →
  console_since w (handle host this event w).2
    = [GroupCollapsed (strategyStart host "CacheFirst" event)].
Proof.
  intros Henv Hthis Hm. apply store_match_error in Hm.
  assert (Hdev : development host = true).
  { unfold development. apply negb_true_iff. by apply String.eqb_neq. }
  apply console_since_app.
  by rewrite (handle_console host this self event w Hthis), Hdev, Hm.
Qed.

Lemma handle_leaves_group_open_witness :
  let host := sample_host "development" (Abrupt (JsError "QuotaExceededError" ""))
                (Normal data_json) Pending in
  console_since (sample_world host) (handle host 0 sample_event (sample_world host)).2
    = [GroupCollapsed "Using CacheFirst to respond to '/data.json'"].
Proof.
  intros host.
  rewrite (handle_leaves_group_open host (sample_world host) 0
             {| _cacheName := "assets";
                _plugins := [{| plugin_id := 1 |}; {| plugin_id := 2 |}] |}
             sample_event (JsError "QuotaExceededError" "")).
  - reflexivity.
  - discriminate.
  - reflexivity.
  - reflexivity.
Defined.

(** X3.  Outside production, when the store match does not fail, [handle]
    opens one log group, writes plain log lines, prints the final response
    (the delivered one, or [undefined] when it is about to throw) and closes
    the group, also on the run that ends by throwing the fetch error. *)
Theorem handle_closes_group host w this self event found :
  NODE_ENV host ≠ "production" →
  objects w !! this = Some self →
  (store_match host self event w).1 = Normal found →
  ∃ lines, console_since w (handle host this event w).2
      = GroupCollapsed (strategyStart host "CacheFirst" event) :: lines ++
        [PrintFinalResponse (delivered (handle host this event w).1); GroupEnd]
    ∧ forallb is_log lines = true.
Proof.
  intros Henv Hthis Hm.
  assert (Hdev : development host = true).
  { unfold development. apply negb_true_iff. by apply String.eqb_neq. }
  rewrite (console_since_app _ _ _ (handle_console host this self event w Hthis)).
  rewrite (handle_outcome host w this self event Hthis), Hdev.
  rewrite store_match_outcome in Hm. rewrite store_match_outcome, network_fetch_outcome.
  destruct (match_result host (_cacheName self) (request event) None (_plugins self))
    as [[i|]|e]; [| |discriminate].
  - exists [Log ("Found a cached response in the '" +:+ _cacheName self +:+ "' " +:+
                 "cache.")].
    split; reflexivity.
  - exists [Log ("No response found in the '" +:+ _cacheName self +:+ "' cache. " +:+
                 "Will respond with a network request.");
            Log (match fetch_result host (request event) None (_plugins self) with
                 | Normal _ => "Got response from network."
                 | Abrupt _ => "Unable to get a response from the network."
                 end)].
    split; [|reflexivity].
    destruct (fetch_result host (request event) None (_plugins self)) as [i|e];
      [reflexivity|]. by destruct (truthy e).
Qed.

Lemma handle_closes_group_witness :
  let host := sample_host "development" (Normal None) (Abrupt failed_to_fetch)
                Pending in
  ∃ lines, console_since (sample_world host)
             (handle host 0 sample_event (sample_world host)).2
      = GroupCollapsed "Using CacheFirst to respond to '/data.json'" :: lines ++
        [PrintFinalResponse None; GroupEnd].
Proof.
  intros host.
  destruct (handle_closes_group host (sample_world host) 0
              {| _cacheName := "assets";
                 _plugins := [{| plugin_id := 1 |}; {| plugin_id := 2 |}] |}
              sample_event None) as (lines & Hlog & _).
  - discriminate.
  - reflexivity.
  - reflexivity.
  - exists lines. exact Hlog.
Defined.

(** X4.  [handle] completes normally with [undefined] exactly when the
    store match returns no response and the fetch fails with a falsy
    value: the guard [if (error)] then skips the [throw]. *)
Theorem handle_returns_undefined_iff host w this self event :
  objects w !! this = Some self →
  (handle host this event w).1 = Normal None
  ↔ (store_match host self event w).1 = Normal None
    ∧ ∃ e, (network_fetch host self event w).1 = Abrupt e ∧ truthy e = false.
Proof.
  intros Hthis. rewrite (handle_outcome host w this self event Hthis).
  destruct (store_match host self event w).1 as [[r|]|e]; [| |].
  - split; [discriminate|]. intros [[=] _].
  - destruct (network_fetch host self event w).1 as [r|e].
    + split; [discriminate|]. intros (_ & e & [=] & _).
    + destruct (truthy e) eqn:He.
      * split; [discriminate|]. intros (_ & e' & [= <-] & He'). congruence.
      * split; [|reflexivity]. intros _. split; [reflexivity|]. by exists e.
  - split; [discriminate|]. intros [[=] _].
Qed.

Lemma handle_returns_undefined_iff_witness :
  let host := sample_host "production" (Normal None) (Abrupt JsUndefined) Pending in
  (handle host 0 sample_event (sample_world host)).1 = Normal None.
Proof.
  intros host.
  apply (handle_returns_undefined_iff host (sample_world host) 0
           {| _cacheName := "assets";
              _plugins := [{| plugin_id := 1 |}; {| plugin_id := 2 |}] |}
           sample_event).
  - reflexivity.
  - split; [reflexivity|]. exists JsUndefined. split; reflexivity.
Defined.

(** X5.  [handle] never fails with a falsy value of its own: when it
    fails with a value that is not the one the store match failed with, the
    value is truthy, since the only [throw] of [handle] is guarded by
    [if (error)]. *)
Theorem handle_rejects_falsy_only_from_match host w this self event v :
  objects w !! this = Some self →
  (handle host this event w).1 = Abrupt v →
  (store_match host self event w).1 = Abrupt v ∨ truthy v = true.
Proof.
  intros Hthis. rewrite (handle_outcome host w this self event Hthis).
  destruct (store_match host self event w).1 as [[r|]|e].
  - discriminate.
  - destruct (network_fetch host self event w).1 as [r|e]; [discriminate|].
    destruct (truthy e) eqn:He; [|discriminate].
    intros [= <-]. by right.
  - intros [= <-]. by left.
Qed.

Lemma handle_rejects_falsy_only_from_match_witness :
  let host := sample_host "production" (Normal None) (Abrupt (JsString "offline"))
                Pending in
  truthy (JsString "offline") = true.
Proof.
  intros host.
  destruct (handle_rejects_falsy_only_from_match host (sample_world host) 0
              {| _cacheName := "assets";
                 _plugins := [{| plugin_id := 1 |}; {| plugin_id := 2 |}] |}
              sample_event (JsString "offline")) as [Hmatch|Htruthy].
  - reflexivity.
  - reflexivity.
  - discriminate Hmatch.
  - exact Htruthy.
Defined.

(** X6.  A response that [handle] delivers is the one the store match
    returned, or the store match returned none and it is the one the fetch
    produced: [handle] never delivers any other response. *)
Theorem handle_returns_only_matched_or_fetched host w this self event r :
  objects w !! this = Some self →
  (handle host this event w).1 = Normal (Some r) →
  (store_match host self event w).1 = Normal (Some r)
  ∨ ((store_match host self event w).1 = Normal None
     ∧ (network_fetch host self event w).1 = Normal r).
Proof.
  intros Hthis. rewrite (handle_outcome host w this self event Hthis).
  destruct (store_match host self event w).1 as [[r'|]|e].
  - intros [= <-]. by left.
  - destruct (network_fetch host self event w).1 as [r'|e].
    + intros [= <-]. right. auto.
    + by destruct (truthy e).
  - discriminate.
Qed.

Lemma handle_returns_only_matched_or_fetched_witness :
  let host := sample_host "development" (Normal None) (Normal data_json) Pending in
  (network_fetch host
     {| _cacheName := "assets";
        _plugins := [{| plugin_id := 1 |}; {| plugin_id := 2 |}] |}
     sample_event (sample_world host)).1
    = Normal (created data_json (sample_world host)).
Proof.
  intros host.
  destruct (handle_returns_only_matched_or_fetched host (sample_world host) 0
              {| _cacheName := "assets";
                 _plugins := [{| plugin_id := 1 |}; {| plugin_id := 2 |}] |}
              sample_event (created data_json (sample_world host)))
    as [Hhit|[_ Hfetch]].
  - reflexivity.
  - reflexivity.
  - discriminate Hhit.
  - exact Hfetch.
Defined.

(** X7.  A run on a live object starts with the store match and makes a
    fetch exactly when the match returned no response; a put is made only
    after such a miss and a successful fetch, and something is registered
    with [event.waitUntil] only in a run that made the put. *)
Theorem handle_network_calls_only_after_miss host w this self event :
  objects w !! this = Some self →
  let cs := calls_since w (handle host this event w).2 in
  head cs = Some (CallMatch (_cacheName self) (request event) None (_plugins self))
  ∧ (count is_fetch cs = 1 ↔ (store_match host self event w).1 = Normal None)
  ∧ (count is_put cs = 1 →
     (store_match host self event w).1 = Normal None
     ∧ ∃ r, (network_fetch host self event w).1 = Normal r)
  ∧ (lifetime (handle host this event w).2 ≠ lifetime w → count is_put cs = 1).
Proof.
  intros Hthis cs. subst cs.
  destruct (handle_calls host w this self event Hthis) as (rest & -> & Hrest).
  assert (Hlife : ∃ lt, lifetime (handle host this event w).2 = lifetime w ++ lt
                    ∧ length lt = count is_put rest).
  { revert Hrest. rewrite store_match_outcome, network_fetch_outcome.
    destruct (match_result host (_cacheName self) (request event) None (_plugins self))
      as [[i|]|e] eqn:Hm.
    - destruct (handle_hit host this self event w i Hthis Hm)
        as (w' & -> & [_ _ _ Hl _]).
      intros ->. by exists [].
    - destruct (fetch_result host (request event) None (_plugins self))
        as [i|e] eqn:Hf.
      + destruct (handle_miss_ok host this self event w i Hthis Hm Hf)
          as (w' & -> & [_ _ _ Hl _]).
        intros (c & p & ->). eexists. split; [exact Hl|]. reflexivity.
      + destruct (handle_miss_fail host this self event w e Hthis Hm Hf)
          as (w' & -> & [_ _ _ Hl _]).
        intros ->. by exists [].
    - destruct (handle_lookup_fail host this self event w e Hthis Hm)
        as (w' & -> & [_ _ _ Hl _]).
      intros ->. by exists []. }
  destruct Hlife as (lt & -> & Hlen).
  assert (Hgrow : lifetime w ++ lt ≠ lifetime w → lt ≠ []).
  { intros Hne ->. apply Hne. apply app_nil_r. }
  split; [reflexivity|].
  destruct (store_match host self event w).1 as [[r|]|e].
  - subst rest. destruct lt; [|discriminate].
    split; [split; discriminate|]. split; [discriminate|].
    intros Hne. by apply Hgrow in Hne.
  - destruct (network_fetch host self event w).1 as [r|e].
    + destruct Hrest as (c & p & ->).
      split; [done|]. split; [|done]. intros _. eauto.
    + subst rest. destruct lt; [|discriminate].
      split; [done|]. split; [discriminate|].
      intros Hne. by apply Hgrow in Hne.
  - subst rest. destruct lt; [|discriminate].
    split; [split; discriminate|]. split; [discriminate|].
    intros Hne. by apply Hgrow in Hne.
Qed.

Lemma handle_network_calls_only_after_miss_witness :
  let host := sample_host "production" (Normal None) (Normal data_json) Pending in
  let self := {| _cacheName := "assets";
                 _plugins := [{| plugin_id := 1 |}; {| plugin_id := 2 |}] |} in
  (store_match host self sample_event (sample_world host)).1 = Normal None
  ∧ ∃ r, (network_fetch host self sample_event (sample_world host)).1 = Normal r.
Proof.
  intros host self.
  destruct (handle_network_calls_only_after_miss host (sample_world host) 0 self
              sample_event) as (_ & _ & Hput & Hreg).
  - reflexivity.
  - apply Hput, Hreg. discriminate.
Defined.

(** ** The question about glob patterns: its properties *)

Lemma elem_of_Set_add y x set : y ∈ Set_add x set ↔ y = x ∨ y ∈ set.
Proof.
  unfold Set_add. destruct (decide (x ∈ set)) as [Hin|Hout].
  - split; [auto|]. intros [->|H]; assumption.
  - rewrite elem_of_app, list_elem_of_singleton. tauto.
Qed.

Lemma Set_add_NoDup x set : NoDup set → NoDup (Set_add x set).
Proof.
  intros Hnd. unfold Set_add. destruct (decide (x ∈ set)) as [Hin|Hout]; [exact Hnd|].
  apply NoDup_app. split; [exact Hnd|]. split.
  - intros y Hy. rewrite list_elem_of_singleton. by intros ->.
  - apply NoDup_singleton.
Qed.

Lemma Set_add_prefix x set : ∃ more, Set_add x set = set ++ more.
Proof.
  unfold Set_add. destruct (decide (x ∈ set)).
  - exists []. by rewrite app_nil_r.
  - by exists [x].
Qed.

Section Extensions.

Variable cli : GlobPatterns.Cli.

Lemma add_extension_NoDup files set :
  NoDup set → NoDup (fold_left (GlobPatterns.add_extension cli) files set).
Proof.
  revert set. induction files as [|file files IH]; intros set Hnd; simpl; [exact Hnd|].
  apply IH. unfold GlobPatterns.add_extension.
  destruct (truthy _); [by apply Set_add_NoDup | exact Hnd].
Qed.

Lemma elem_of_add_extension files set x :
  x ∈ fold_left (GlobPatterns.add_extension cli) files set
  ↔ x ∈ set
    ∨ ∃ file, file ∈ files ∧ GlobPatterns.extname cli file ≠ ""
              ∧ x = replace_leading_dot (GlobPatterns.extname cli file).
Proof.
  revert set. induction files as [|file files IH]; intros set; simpl.
  - split; [auto|]. intros [H|(file & H & _)]; [exact H|]. by apply elem_of_nil in H.
  - rewrite IH. unfold GlobPatterns.add_extension. simpl.
    destruct (String.eqb_spec (GlobPatterns.extname cli file) "") as [Hempty|Hext]; simpl.
    + split.
      * intros [H|(f & Hf & Hne & ->)]; [by left|]. right. exists f.
        split; [by right|]. done.
      * intros [H|(f & Hf & Hne & ->)]; [by left|].
        apply elem_of_cons in Hf as [->|Hf]; [done|]. right. by exists f.
    + rewrite elem_of_Set_add. split.
      * intros [[->|H]|(f & Hf & Hne & ->)].
        -- right. exists file. split; [by left|]. done.
        -- by left.
        -- right. exists f. split; [by right|]. done.
      * intros [H|(f & Hf & Hne & ->)]; [left; by right|].
        apply elem_of_cons in Hf as [->|Hf]; [left; by left|]. right. by exists f.
Qed.

Lemma kept_spec ignore filePath :
  GlobPatterns.kept ignore filePath = true
  ↔ ∀ substring, substring ∈ ignore → includes filePath substring = false.
Proof.
  unfold GlobPatterns.kept. rewrite forallb_forall. split.
  - intros H s Hs. apply negb_true_iff, H. by apply list_elem_of_In.
  - intros H s Hs. apply negb_true_iff, H. by apply list_elem_of_In.
Qed.

(** A file counts when none of the ignored directories lies on its path. *)
Lemma counted_spec allFiles file :
  file ∈ List.filter
           (GlobPatterns.kept
              ((λ directory, GlobPatterns.sep cli +:+ directory +:+ GlobPatterns.sep cli)
                 <$> GlobPatterns.ignoredDirectories cli)) allFiles
  ↔ file ∈ allFiles
    ∧ ∀ directory, directory ∈ GlobPatterns.ignoredDirectories cli →
        includes file (GlobPatterns.sep cli +:+ directory +:+ GlobPatterns.sep cli) = false.
Proof.
  rewrite list_elem_of_In, filter_In, <- list_elem_of_In, kept_spec.
  split; intros [Hin H]; (split; [exact Hin|]).
  - intros d Hd. apply H. apply list_elem_of_fmap. by exists d.
  - intros s Hs. apply list_elem_of_fmap in Hs as (d & -> & Hd). by apply H.
Qed.

Lemma getAllFileExtensions_run dir log :
  GlobPatterns.getAllFileExtensions cli dir log =
    (match GlobPatterns.promiseFiles cli dir "file" false true with
     | Normal allFiles =>
         Normal (fold_left (GlobPatterns.add_extension cli)
                   (List.filter
                      (GlobPatterns.kept
                         ((λ directory, GlobPatterns.sep cli +:+ directory +:+
                                        GlobPatterns.sep cli)
                            <$> GlobPatterns.ignoredDirectories cli)) allFiles) [])
     | Abrupt e => Abrupt e
     end, log ++ [GlobPatterns.CallPromiseFiles dir "file" false true]).
Proof.
  unfold GlobPatterns.getAllFileExtensions, GlobPatterns.nodeDir_promiseFiles,
    GlobPatterns.of_outcome, mbind, GlobPatterns.Async_bind.
  by destruct (GlobPatterns.promiseFiles cli dir "file" false true).
Qed.

End Extensions.

Lemma askQuestion_run cli dir log :
  GlobPatterns.askQuestion cli dir log =
    match GlobPatterns.getAllFileExtensions cli dir log with
    | (Normal fileExtensions, log') =>
        if (length fileExtensions =? 0)%nat
        then (Abrupt (new_Error (GlobPatterns.errors cli "no-file-extensions-found")),
              log')
        else (GlobPatterns.prompt cli [the_question fileExtensions],
              log' ++ [GlobPatterns.CallPrompt [the_question fileExtensions]])
    | (Abrupt e, log') => (Abrupt e, log')
    end.
Proof.
  unfold GlobPatterns.askQuestion, mbind, GlobPatterns.Async_bind.
  destruct (GlobPatterns.getAllFileExtensions cli dir log) as [[exts|e] log'];
    [|reflexivity].
  by destruct (length exts =? 0)%nat.
Qed.

Lemma module_exports_run cli dir log :
  GlobPatterns.module_exports cli dir log =
    match GlobPatterns.askQuestion cli dir log with
    | (Normal answers, log') =>
        match answers !! GlobPatterns.name with
        | None => (Abrupt (type_error "Cannot read property 'length' of undefined"), log')
        | Some extensions =>
            if (length extensions =? 0)%nat
            then (Abrupt (new_Error (GlobPatterns.errors cli "no-file-extensions-selected")),
                  log')
            else (Normal ["**/*.{" +:+ String.concat "," extensions +:+ "}"], log')
        end
    | (Abrupt e, log') => (Abrupt e, log')
    end.
Proof.
  unfold GlobPatterns.module_exports, mbind, GlobPatterns.Async_bind.
  destruct (GlobPatterns.askQuestion cli dir log) as [[answers|e] log']; [|reflexivity].
  destruct (answers !! GlobPatterns.name) as [exts|]; [|reflexivity].
  by destruct (length exts =? 0)%nat.
Qed.

Lemma length_eqb_0 {A : Type} (l : list A) : (length l =? 0)%nat = true ↔ l = [].
Proof. destruct l; simpl; split; congruence. Qed.

Lemma askQuestion_prompts cli dir log extensions log' :
  GlobPatterns.getAllFileExtensions cli dir log = (Normal extensions, log') →
  extensions ≠ [] →
  GlobPatterns.askQuestion cli dir log
    = (GlobPatterns.prompt cli [the_question extensions],
       log' ++ [GlobPatterns.CallPrompt [the_question extensions]]).
Proof.
  intros Hrun Hne. rewrite askQuestion_run, Hrun.
  destruct (length extensions =? 0)%nat eqn:Hlen; [|reflexivity].
  by apply length_eqb_0 in Hlen.
Qed.

(** The members of the extension set built from the scanned files. *)
Lemma extensions_members cli allFiles x :
  x ∈ fold_left (GlobPatterns.add_extension cli)
        (List.filter
           (GlobPatterns.kept
              ((λ directory, GlobPatterns.sep cli +:+ directory +:+ GlobPatterns.sep cli)
                 <$> GlobPatterns.ignoredDirectories cli)) allFiles) []
  ↔ ∃ file, file ∈ allFiles ∧ counted cli file
            ∧ GlobPatterns.extname cli file ≠ ""
            ∧ x = replace_leading_dot (GlobPatterns.extname cli file).
Proof.
  rewrite elem_of_add_extension. split.
  - intros [H|(file & Hfile & Hext & ->)]; [by apply elem_of_nil in H|].
    apply counted_spec in Hfile as [Hin Hc]. by exists file.
  - intros (file & Hin & Hc & Hext & ->). right. exists file.
    split; [|done]. apply counted_spec. done.
Qed.

(** X8.  When the directory scan succeeds, [getAllFileExtensions] returns
    after that one call, and no extension occurs twice in its result. *)
Theorem getAllFileExtensions_unique cli dir log allFiles :
  GlobPatterns.promiseFiles cli dir "file" false true = Normal allFiles →
  ∃ extensions,
    GlobPatterns.getAllFileExtensions cli dir log
      = (Normal extensions, log ++ [GlobPatterns.CallPromiseFiles dir "file" false true])
    ∧ NoDup extensions.
Proof.
  intros Hscan. rewrite getAllFileExtensions_run, Hscan.
  eexists. split; [reflexivity|]. apply add_extension_NoDup. constructor.
Qed.

Lemma getAllFileExtensions_unique_witness :
  ∃ extensions,
    (GlobPatterns.getAllFileExtensions
       (sample_cli (Normal sample_files) (Abrupt JsNull)) "/site" []).1
      = Normal extensions
    ∧ NoDup extensions.
Proof.
  destruct (getAllFileExtensions_unique
              (sample_cli (Normal sample_files) (Abrupt JsNull)) "/site" [] sample_files)
    as (extensions & Hrun & Hnd).
  - reflexivity.
  - exists extensions. rewrite Hrun. split; [reflexivity | exact Hnd].
Defined.

(** X9.  The extensions returned are exactly those of the scanned files
    that have no ignored directory on their path and a non-empty
    [path.extname], each without its leading dot. *)
Theorem getAllFileExtensions_members cli dir log allFiles :
  GlobPatterns.promiseFiles cli dir "file" false true = Normal allFiles →
  ∃ extensions,
    (GlobPatterns.getAllFileExtensions cli dir log).1 = Normal extensions
    ∧ ∀ x, x ∈ extensions
        ↔ ∃ file, file ∈ allFiles ∧ counted cli file
                  ∧ GlobPatterns.extname cli file ≠ ""
                  ∧ x = replace_leading_dot (GlobPatterns.extname cli file).
Proof.
  intros Hscan. rewrite getAllFileExtensions_run, Hscan.
  eexists. split; [reflexivity|]. intros x. apply extensions_members.
Qed.

Lemma getAllFileExtensions_members_witness :
  ∃ extensions,
    (GlobPatterns.getAllFileExtensions
       (sample_cli (Normal sample_files) (Abrupt JsNull)) "/site" []).1
      = Normal extensions
    ∧ "js" ∈ extensions.
Proof.
  destruct (getAllFileExtensions_members
              (sample_cli (Normal sample_files) (Abrupt JsNull)) "/site" [] sample_files)
    as (extensions & Hrun & Hmem).
  - reflexivity.
  - exists extensions. split; [exact Hrun|]. apply Hmem.
    exists "/site/app.js". split; [repeat constructor|]. split; [|split; [discriminate|reflexivity]].
    intros directory Hd. cbn in Hd.
    apply elem_of_cons in Hd as [->|Hd]; [reflexivity|].
    apply elem_of_cons in Hd as [->|Hd]; [reflexivity|].
    by apply elem_of_nil in Hd.
Defined.

(** X10.  The test [if (extension)] is made before the leading dot is
    removed: a counted file whose [path.extname] is the lone dot puts the
    empty extension into the result. *)
Theorem getAllFileExtensions_lone_dot cli dir log allFiles file :
  GlobPatterns.promiseFiles cli dir "file" false true = Normal allFiles →
  file ∈ allFiles → counted cli file →
  GlobPatterns.extname cli file = "." →
  ∃ extensions,
    (GlobPatterns.getAllFileExtensions cli dir log).1 = Normal extensions
    ∧ "" ∈ extensions.
Proof.
  intros Hscan Hin Hc Hext. rewrite getAllFileExtensions_run, Hscan.
  eexists. split; [reflexivity|]. apply elem_of_add_extension. right.
  exists file. split; [by apply counted_spec|]. rewrite Hext. by split.
Qed.

Lemma getAllFileExtensions_lone_dot_witness :
  ∃ extensions,
    (GlobPatterns.getAllFileExtensions
       (sample_cli (Normal ("/site/notes." :: sample_files)) (Abrupt JsNull))
       "/site" []).1 = Normal extensions
    ∧ "" ∈ extensions.
Proof.
  apply (getAllFileExtensions_lone_dot
           (sample_cli (Normal ("/site/notes." :: sample_files)) (Abrupt JsNull))
           "/site" [] ("/site/notes." :: sample_files) "/site/notes.").
  - reflexivity.
  - constructor.
  - intros directory Hd. cbn in Hd.
    apply elem_of_cons in Hd as [->|Hd]; [reflexivity|].
    apply elem_of_cons in Hd as [->|Hd]; [reflexivity|].
    by apply elem_of_nil in Hd.
  - reflexivity.
Defined.

(** X11.  When every scanned file has an ignored directory on its path or
    an empty [path.extname] (in particular when there is no file at all),
    [askQuestion] fails with the message of [no-file-extensions-found]
    and never reaches the prompt. *)
Theorem askQuestion_no_extensions cli dir log allFiles :
  GlobPatterns.promiseFiles cli dir "file" false true = Normal allFiles →
  (∀ file, file ∈ allFiles → counted cli file → GlobPatterns.extname cli file = "") →
  GlobPatterns.askQuestion cli dir log
    = (Abrupt (new_Error (GlobPatterns.errors cli "no-file-extensions-found")),
       log ++ [GlobPatterns.CallPromiseFiles dir "file" false true]).
Proof.
  intros Hscan Hnone. rewrite askQuestion_run, getAllFileExtensions_run, Hscan.
  set (extensions := fold_left _ _ []).
  assert (Hempty : extensions = []).
  { destruct extensions as [|x rest] eqn:Hx; [reflexivity|]. exfalso.
    destruct (proj1 (extensions_members cli allFiles x))
      as (file & Hin & Hc & Hext & _).
    - fold extensions. rewrite Hx. by left.
    - by apply Hext, Hnone. }
  by rewrite Hempty.
Qed.

Lemma askQuestion_no_extensions_witness :
  GlobPatterns.askQuestion
    (sample_cli (Normal ["/site/LICENSE"; "/site/node_modules/dep/dep.css"])
       (Normal ∅)) "/site" []
    = (Abrupt (JsError "Error" "error: no-file-extensions-found"),
       [GlobPatterns.CallPromiseFiles "/site" "file" false true]).
Proof.
  apply (askQuestion_no_extensions
           (sample_cli (Normal ["/site/LICENSE"; "/site/node_modules/dep/dep.css"])
              (Normal ∅)) "/site" []
           ["/site/LICENSE"; "/site/node_modules/dep/dep.css"]).
  - reflexivity.
  - intros file Hin Hc.
    apply elem_of_cons in Hin as [->|Hin]; [reflexivity|].
    apply elem_of_cons in Hin as [->|Hin]; [|by apply elem_of_nil in Hin].
    exfalso. specialize (Hc "node_modules"). cbn in Hc.
    discriminate Hc. by left.
Defined.

(** X12.  When [getAllFileExtensions] finds at least one extension,
    [askQuestion] puts exactly one checkbox question named [globPatterns]
    whose choices are the extensions found, all of them selected by
    default, and hands back whatever the prompt answers, a failure
    included. *)
Theorem askQuestion_asks cli dir log extensions log' :
  GlobPatterns.getAllFileExtensions cli dir log = (Normal extensions, log') →
  extensions ≠ [] →
  let question := the_question extensions in
  GlobPatterns.askQuestion cli dir log
    = (GlobPatterns.prompt cli [question], log' ++ [GlobPatterns.CallPrompt [question]])
  ∧ GlobPatterns.q_name question = "globPatterns"
  ∧ GlobPatterns.q_type question = "checkbox"
  ∧ GlobPatterns.q_choices question = extensions
  ∧ GlobPatterns.q_default question = extensions.
Proof.
  intros Hrun Hne question. subst question.
  rewrite (askQuestion_prompts cli dir log extensions log' Hrun Hne).
  by repeat split.
Qed.

Lemma askQuestion_asks_witness :
  let cli := sample_cli (Normal sample_files)
               (Normal {[ "globPatterns" := ["html"] ]}) in
  GlobPatterns.askQuestion cli "/site" []
    = (Normal {[ "globPatterns" := ["html"] ]},
       [GlobPatterns.CallPromiseFiles "/site" "file" false true;
        GlobPatterns.CallPrompt [the_question ["html"; "js"]]]).
Proof.
  intros cli.
  destruct (askQuestion_asks cli "/site" [] ["html"; "js"]
              [GlobPatterns.CallPromiseFiles "/site" "file" false true])
    as (Hrun & _).
  - reflexivity.
  - discriminate.
  - exact Hrun.
Defined.

(** X13.  From the scan to the pattern: when the scan finds extensions and
    the answer to [globPatterns] is a non-empty selection, the exported
    function returns exactly one pattern, [**/*.{...}] with the selected
    extensions joined by commas, after one scan and one prompt. *)
Theorem module_exports_pattern cli dir log extensions log' answers selected :
  GlobPatterns.getAllFileExtensions cli dir log = (Normal extensions, log') →
  extensions ≠ [] →
  GlobPatterns.prompt cli [the_question extensions] = Normal answers →
  answers !! "globPatterns" = Some selected →
  selected ≠ [] →
  GlobPatterns.module_exports cli dir log
    = (Normal ["**/*.{" +:+ String.concat "," selected +:+ "}"],
       log' ++ [GlobPatterns.CallPrompt [the_question extensions]]).
Proof.
  intros Hrun Hne Hprompt Hsel Hsome.
  rewrite module_exports_run.
  rewrite (askQuestion_prompts cli dir log extensions log' Hrun Hne).
  rewrite Hprompt. unfold GlobPatterns.name. rewrite Hsel.
  destruct (length selected =? 0)%nat eqn:Hlen; [|reflexivity].
  by apply length_eqb_0 in Hlen.
Qed.

Lemma module_exports_pattern_witness :
  let cli := sample_cli (Normal sample_files)
               (Normal {[ "globPatterns" := ["html"; "js"] ]}) in
  (GlobPatterns.module_exports cli "/site" []).1 = Normal ["**/*.{html,js}"].
Proof.
  intros cli.
  rewrite (module_exports_pattern cli "/site" [] ["html"; "js"]
             [GlobPatterns.CallPromiseFiles "/site" "file" false true]
             {[ "globPatterns" := ["html"; "js"] ]} ["html"; "js"]).
  - reflexivity.
  - reflexivity.
  - discriminate.
  - reflexivity.
  - reflexivity.
  - discriminate.
Defined.

(** X14.  When the answer to [globPatterns] is the empty selection, the
    exported function fails with the message of
    [no-file-extensions-selected], and no pattern is produced. *)
Theorem module_exports_nothing_selected cli dir log extensions log' answers :
  GlobPatterns.getAllFileExtensions cli dir log = (Normal extensions, log') →
  extensions ≠ [] →
  GlobPatterns.prompt cli [the_question extensions] = Normal answers →
  answers !! "globPatterns" = Some [] →
  GlobPatterns.module_exports cli dir log
    = (Abrupt (new_Error (GlobPatterns.errors cli "no-file-extensions-selected")),
       log' ++ [GlobPatterns.CallPrompt [the_question extensions]]).
Proof.
  intros Hrun Hne Hprompt Hsel.
  rewrite module_exports_run.
  rewrite (askQuestion_prompts cli dir log extensions log' Hrun Hne).
  rewrite Hprompt. unfold GlobPatterns.name. by rewrite Hsel.
Qed.

Lemma module_exports_nothing_selected_witness :
  let cli := sample_cli (Normal sample_files) (Normal {[ "globPatterns" := [] ]}) in
  (GlobPatterns.module_exports cli "/site" []).1
    = Abrupt (JsError "Error" "error: no-file-extensions-selected").
Proof.
  intros cli.
  rewrite (module_exports_nothing_selected cli "/site" [] ["html"; "js"]
             [GlobPatterns.CallPromiseFiles "/site" "file" false true]
             {[ "globPatterns" := [] ]}).
  - reflexivity.
  - reflexivity.
  - discriminate.
  - reflexivity.
  - reflexivity.
Defined.

(** X15.  A failure of the directory scan leaves all three functions with
    the same thrown value, and none of them reaches the prompt. *)
Theorem scan_failure_propagates cli dir log e :
  GlobPatterns.promiseFiles cli dir "file" false true = Abrupt e →
  let log' := log ++ [GlobPatterns.CallPromiseFiles dir "file" false true] in
  GlobPatterns.getAllFileExtensions cli dir log = (Abrupt e, log')
  ∧ GlobPatterns.askQuestion cli dir log = (Abrupt e, log')
  ∧ GlobPatterns.module_exports cli dir log = (Abrupt e, log').
Proof.
  intros Hscan log'.
  assert (H1 : GlobPatterns.getAllFileExtensions cli dir log = (Abrupt e, log'))
    by (by rewrite getAllFileExtensions_run, Hscan).
  assert (H2 : GlobPatterns.askQuestion cli dir log = (Abrupt e, log'))
    by (by rewrite askQuestion_run, H1).
  split; [exact H1|]. split; [exact H2|].
  by rewrite module_exports_run, H2.
Qed.

Lemma scan_failure_propagates_witness :
  GlobPatterns.module_exports
    (sample_cli (Abrupt (JsError "Error" "ENOENT")) (Normal ∅)) "/missing" []
    = (Abrupt (JsError "Error" "ENOENT"),
       [GlobPatterns.CallPromiseFiles "/missing" "file" false true]).
Proof.
  apply (scan_failure_propagates
           (sample_cli (Abrupt (JsError "Error" "ENOENT")) (Normal ∅)) "/missing" []
           (JsError "Error" "ENOENT")).
  reflexivity.
Defined.

(** X16.  Every run of the exported function makes the directory scan
    first, for files, recursively and with full paths, and after it either
    nothing or one prompt with a single question whose choices are
    non-empty, free of duplicates and all selected by default. *)
Theorem module_exports_calls cli dir log :
  ∃ rest, (GlobPatterns.module_exports cli dir log).2
            = log ++ GlobPatterns.CallPromiseFiles dir "file" false true :: rest
    ∧ (rest = []
       ∨ ∃ question, rest = [GlobPatterns.CallPrompt [question]]
           ∧ GlobPatterns.q_choices question ≠ []
           ∧ NoDup (GlobPatterns.q_choices question)
           ∧ GlobPatterns.q_default question = GlobPatterns.q_choices question).
Proof.
  rewrite module_exports_run, askQuestion_run, getAllFileExtensions_run.
  destruct (GlobPatterns.promiseFiles cli dir "file" false true) as [allFiles|e] eqn:Hscan.
  - set (extensions := fold_left _ _ []).
    assert (Hnd : NoDup extensions) by (apply add_extension_NoDup; constructor).
    destruct (length extensions =? 0)%nat eqn:Hlen.
    + exists []. split; [reflexivity|]. by left.
    + exists [GlobPatterns.CallPrompt [the_question extensions]]. split.
      * destruct (GlobPatterns.prompt cli [the_question extensions]) as [answers|e];
          [|by rewrite <- app_assoc].
        destruct (answers !! GlobPatterns.name) as [selected|];
          [|by rewrite <- app_assoc].
        destruct (length selected =? 0)%nat; by rewrite <- app_assoc.
      * right. exists (the_question extensions). split; [reflexivity|].
        split; [|by split]. simpl. intros Hnil. rewrite Hnil in Hlen. discriminate.
  - exists []. split; [reflexivity|]. by left.
Qed.

(** X17.  A failure of the prompt leaves the exported function with the
    same thrown value, after the scan and the one prompt. *)
Theorem prompt_failure_propagates cli dir log extensions log' e :
  GlobPatterns.getAllFileExtensions cli dir log = (Normal extensions, log') →
  extensions ≠ [] →
  GlobPatterns.prompt cli [the_question extensions] = Abrupt e →
  GlobPatterns.module_exports cli dir log
    = (Abrupt e, log' ++ [GlobPatterns.CallPrompt [the_question extensions]]).
Proof.
  intros Hrun Hne Hprompt. rewrite module_exports_run.
  rewrite (askQuestion_prompts cli dir log extensions log' Hrun Hne).
  by rewrite Hprompt.
Qed.

Lemma prompt_failure_propagates_witness :
  let cli := sample_cli (Normal sample_files) (Abrupt (JsError "Error" "closed")) in
  (GlobPatterns.module_exports cli "/site" []).1 = Abrupt (JsError "Error" "closed").
Proof.
  intros cli.
  rewrite (prompt_failure_propagates cli "/site" [] ["html"; "js"]
             [GlobPatterns.CallPromiseFiles "/site" "file" false true]
             (JsError "Error" "closed")).
  - reflexivity.
  - reflexivity.
  - discriminate.
  - reflexivity.
Defined.
